(** * Hot-spot peer cache of pd (server/statistics)

    A shallow embedding of [hot_peer_cache.go] ([hotPeerCache], its
    [Update] and [CheckRegionFlow], the state machine [updateHotPeerStat]
    and the thresholds) and of the facade [HotSpotCache] that dispatches
    to one [hotPeerCache] per flow kind, with its queries [RegionStats],
    [RandHotRegionFromStore] and [IsRegionHot], and of the earlier
    variants kept in [hot_cache.go], followed by the properties of the
    hot-degree state machine, of the candidate computation, of [Update],
    of the queries and of the states the cache reaches.

    Conventions.
    - Go's [uint64] is a [Z] in [0, 2^64); Go's [int] is the 64-bit signed
      integer of the platforms pd is built for, a [Z] with its wrap-around
      written out ([wrap_int]).
    - [float64] is the IEEE-754 binary64 format of the Standard Library's
      [SpecFloat] (precision 53, emax 1024), whose operations are plain
      functions over [Z] and compute.
    - A pointer to a [RollingStats] is a location in an explicit heap, so
      that the sharing of one window between an old and a new stat is
      visible.
    - A Go panic (nil dereference) is the outcome [Panic]. *)

From Stdlib Require Import ZArith Lia Bool List SpecFloat.
From Stdlib Require String.
From stdpp Require Import base option list gmap sets.

Local Open Scope Z_scope.
#[local] Set Warnings "-clear-no-such-hyp".

(** ** Machine numbers *)

Definition uint64_max : Z := 2 ^ 64 - 1.
Definition int_min : Z := - 2 ^ 63.
Definition int_max : Z := 2 ^ 63 - 1.

Definition is_int (z : Z) : Prop := int_min ≤ z ≤ int_max.

Definition wrap_uint64 (z : Z) : Z := z mod 2 ^ 64.
Definition wrap_int (z : Z) : Z := (z + 2 ^ 63) mod 2 ^ 64 - 2 ^ 63.

(** [a + b] and [a - b] on Go's [int]. *)
Definition int_add (a b : Z) : Z := wrap_int (a + b).
Definition int_sub (a b : Z) : Z := wrap_int (a - b).

(** ** float64 *)

Abbreviation float64 := spec_float (only parsing).

Definition f64_prec : Z := 53.
Definition f64_emax : Z := 1024.

(** [float64(n)] for an integer [n]: round to nearest, ties to even. *)
Definition f64_of_Z (z : Z) : float64 := binary_normalize f64_prec f64_emax z 0 false.
Definition f64_div (x y : float64) : float64 := SFdiv f64_prec f64_emax x y.
Definition f64_add (x y : float64) : float64 := SFadd f64_prec f64_emax x y.
Definition f64_ltb (x y : float64) : bool := SFltb x y.

(** The integer part of a finite float (the fraction is discarded);
    [None] for an infinity or a NaN. *)
Definition f64_trunc (f : float64) : option Z :=
  match f with
  | S754_zero _ => Some 0
  | S754_finite s m e =>
      let a := match e with
               | Zneg p => Z.shiftr (Zpos m) (Zpos p)
               | _ => Z.shiftl (Zpos m) e
               end in
      Some (if s then - a else a)
  | S754_infinity _ | S754_nan => None
  end.

(** ** Time (package [time] of the Go library)

    A [Time] is a number of nanoseconds; a [Duration] is an int64 count of
    nanoseconds. [Time.Sub] saturates, and [Duration.Seconds] is
    [float64(d / Second) + float64(d % Second) / 1e9], with Go's
    truncating [/] and [%]. *)

Abbreviation Time := Z (only parsing).
Abbreviation Duration := Z (only parsing).

Definition Second : Z := 1000000000.

Definition Sub (t u : Time) : Duration :=
  let d := t - u in
  if d <? int_min then int_min else if int_max <? d then int_max else d.

Definition Seconds (d : Duration) : float64 :=
  f64_add (f64_of_Z (Z.quot d Second))
          (f64_div (f64_of_Z (Z.rem d Second)) (f64_of_Z Second)).

(** [time.Since(t)] when the clock reads [now]. *)
Definition Since (now t : Time) : Duration := Sub now t.

(** ** Constants of [hot_peer_cache.go] and [hot_cache.go] *)

Definition cacheMaxLen : nat := 1000.
Definition hotPeerMaxCount : Z := 400.
Definition rollingWindowsSize : nat := 5.
Definition hotWriteRegionMinFlowRate : Z := 16 * 1024.
Definition hotReadRegionMinFlowRate : Z := 128 * 1024.
Definition hotRegionReportMinInterval : Z := 3.
Definition hotRegionAntiCount : Z := 1.
Definition RegionHeartBeatReportInterval : Z := 60.

(** ** Data model *)

(** Modelled from the spec: [FlowKind], the enumeration of section 3. *)
Inductive FlowKind := WriteFlow | ReadFlow.

Definition FlowKind_eqb (a b : FlowKind) : bool :=
  match a, b with
  | WriteFlow, WriteFlow | ReadFlow, ReadFlow => true
  | _, _ => false
  end.

(** Modelled from the spec: [metapb.Peer] and [core.RegionInfo], the
    region metadata of section 6 ([id], [epoch_version], [peers],
    [leader], [store_peer] and the four counters). A nil leader is
    [None]; the generated getter [GetStoreId] answers 0 on a nil peer. *)
Record Peer := mkPeer { peer_Id : Z; peer_StoreId : Z }.

Record RegionInfo := mkRegionInfo {
  region_Id : Z;
  region_Version : Z;
  region_Peers : list Peer;
  region_Leader : option Peer;
  region_BytesWritten : Z;
  region_KeysWritten : Z;
  region_BytesRead : Z;
  region_KeysRead : Z
}.

Definition GetStoreId (p : option Peer) : Z :=
  match p with
  | Some q => peer_StoreId q
  | None => 0
  end.

Definition GetID (region : RegionInfo) : Z := region_Id region.
Definition GetPeers (region : RegionInfo) : list Peer := region_Peers region.
Definition GetLeader (region : RegionInfo) : option Peer := region_Leader region.
Definition GetVersion (region : RegionInfo) : Z := region_Version region.

Definition GetStorePeer (region : RegionInfo) (storeID : Z) : option Peer :=
  List.find (fun p => peer_StoreId p =? storeID) (GetPeers region).

(** Modelled from the spec: [StoresStats], the fleet statistics of
    section 6; [store_bytes_rate] answers the write and read byte rates of
    a store, and (0, 0) for a store it does not know (section 7). *)
Abbreviation StoresStats := (gmap Z (float64 * float64)) (only parsing).

Definition GetStoreBytesRate (stats : StoresStats) (storeID : Z) : float64 * float64 :=
  match stats !! storeID with
  | Some r => r
  | None => (S754_zero false, S754_zero false)
  end.

(** Modelled from the spec: [RollingStats], the circular buffer of
    section 4.1: [Add] appends and, when the buffer is full, overwrites
    the oldest sample in arrival order. *)
Record RollingStats := mkRollingStats {
  rs_records : list float64;
  rs_size : nat;
  rs_count : nat
}.

Definition NewRollingStats (size : nat) : RollingStats :=
  mkRollingStats (replicate size (S754_zero false)) size 0.

Definition rs_Add (r : RollingStats) (n : float64) : RollingStats :=
  mkRollingStats (<[ (rs_count r mod rs_size r)%nat := n ]> (rs_records r))
                 (rs_size r) (S (rs_count r)).

(** A pointer to a [RollingStats]; [None] is nil. *)
Abbreviation loc := nat (only parsing).
Abbreviation Heap := (list RollingStats) (only parsing).

(** Modelled from the spec: the declaration of [HotPeerStat] (section 3),
    with the field names the sources use. [HotDegree] is compared with an
    [int] in [isRegionHotWithPeer], and [AntiCount] is the other signed
    counter: both are Go [int]s. [StoreID], [RegionID], the rates and
    [Version] are [uint64]. *)
Record HotPeerStat := mkHotPeerStat {
  StoreID : Z;
  RegionID : Z;
  HotDegree : Z;
  AntiCount : Z;
  Kind : FlowKind;
  BytesRate : Z;
  KeysRate : Z;
  RollingBytesRate : option loc;
  LastUpdateTime : Time;
  Version : Z;
  needDelete : bool;
  isLeader : bool;
  isNew : bool
}.

Definition IsNeedDelete (item : HotPeerStat) : bool := needDelete item.
Definition IsNew (item : HotPeerStat) : bool := isNew item.

Definition set_RollingBytesRate (p : option loc) (i : HotPeerStat) : HotPeerStat :=
  mkHotPeerStat (StoreID i) (RegionID i) (HotDegree i) (AntiCount i) (Kind i)
    (BytesRate i) (KeysRate i) p (LastUpdateTime i) (Version i)
    (needDelete i) (isLeader i) (isNew i).

Definition set_HotDegree (d : Z) (i : HotPeerStat) : HotPeerStat :=
  mkHotPeerStat (StoreID i) (RegionID i) d (AntiCount i) (Kind i)
    (BytesRate i) (KeysRate i) (RollingBytesRate i) (LastUpdateTime i) (Version i)
    (needDelete i) (isLeader i) (isNew i).

Definition set_AntiCount (a : Z) (i : HotPeerStat) : HotPeerStat :=
  mkHotPeerStat (StoreID i) (RegionID i) (HotDegree i) a (Kind i)
    (BytesRate i) (KeysRate i) (RollingBytesRate i) (LastUpdateTime i) (Version i)
    (needDelete i) (isLeader i) (isNew i).

Definition set_needDelete (b : bool) (i : HotPeerStat) : HotPeerStat :=
  mkHotPeerStat (StoreID i) (RegionID i) (HotDegree i) (AntiCount i) (Kind i)
    (BytesRate i) (KeysRate i) (RollingBytesRate i) (LastUpdateTime i) (Version i)
    b (isLeader i) (isNew i).

Definition set_isNew (b : bool) (i : HotPeerStat) : HotPeerStat :=
  mkHotPeerStat (StoreID i) (RegionID i) (HotDegree i) (AntiCount i) (Kind i)
    (BytesRate i) (KeysRate i) (RollingBytesRate i) (LastUpdateTime i) (Version i)
    (needDelete i) (isLeader i) b.

(** Modelled from the spec: the bounded container of section 4.2
    ([cache.Cache] built by [cache.NewCache(_, cache.TwoQueueCache)]),
    absent from the sources at hand. A new key enters the FIFO queue A1;
    a key that is put again is promoted to the LRU queue "main"; when the
    container is full, the oldest key of A1 is evicted, or the least
    recently used key of main when A1 is empty. Both queues hold their
    newest entry first. [Peek] does not touch recency. *)
Record Cache := mkCache {
  cache_cap : nat;
  cache_a1 : list (Z * HotPeerStat);
  cache_main : list (Z * HotPeerStat)
}.

Definition entries_find (k : Z) (l : list (Z * HotPeerStat)) : option HotPeerStat :=
  match List.find (fun e => fst e =? k) l with
  | Some e => Some (snd e)
  | None => None
  end.

Definition entries_remove (k : Z) (l : list (Z * HotPeerStat)) : list (Z * HotPeerStat) :=
  List.filter (fun e => negb (fst e =? k)) l.

Definition entries_contains (k : Z) (l : list (Z * HotPeerStat)) : bool :=
  List.existsb (fun e => fst e =? k) l.

Definition NewCache (cap : nat) : Cache := mkCache cap [] [].

Definition cache_Len (c : Cache) : nat :=
  (length (cache_a1 c) + length (cache_main c))%nat.

Definition cache_Peek (c : Cache) (k : Z) : option HotPeerStat :=
  match entries_find k (cache_main c) with
  | Some v => Some v
  | None => entries_find k (cache_a1 c)
  end.

Definition cache_ensureSpace (c : Cache) : Cache :=
  if (cache_cap c <=? cache_Len c)%nat then
    match cache_a1 c with
    | [] => mkCache (cache_cap c) [] (List.removelast (cache_main c))
    | _ :: _ => mkCache (cache_cap c) (List.removelast (cache_a1 c)) (cache_main c)
    end
  else c.

Definition cache_Put (c : Cache) (k : Z) (v : HotPeerStat) : Cache :=
  if entries_contains k (cache_main c) then
    mkCache (cache_cap c) (cache_a1 c) ((k, v) :: entries_remove k (cache_main c))
  else if entries_contains k (cache_a1 c) then
    mkCache (cache_cap c) (entries_remove k (cache_a1 c)) ((k, v) :: cache_main c)
  else
    let c' := cache_ensureSpace c in
    mkCache (cache_cap c') ((k, v) :: cache_a1 c') (cache_main c').

Definition cache_Remove (c : Cache) (k : Z) : Cache :=
  mkCache (cache_cap c) (entries_remove k (cache_a1 c)) (entries_remove k (cache_main c)).

Definition cache_Elems (c : Cache) : list HotPeerStat :=
  List.map snd (cache_main c ++ cache_a1 c).

(** ** The cache of one flow kind *)

Record hotPeerCache := mkHotPeerCache {
  kind : FlowKind;
  peersOfStore : gmap Z Cache;
  storesOfRegion : gmap Z (gset Z)
}.

Definition NewHotStoresStats (k : FlowKind) : hotPeerCache :=
  mkHotPeerCache k ∅ ∅.

(** [Update]: the stat is removed from, or put into, both indices. The
    inner maps are reached through the outer ones only, so replacing the
    entry of the outer map is the in-place update of the source. *)
Definition Update (f : hotPeerCache) (item : HotPeerStat) : hotPeerCache :=
  if IsNeedDelete item then
    let ps :=
      match peersOfStore f !! StoreID item with
      | Some peers => <[StoreID item := cache_Remove peers (RegionID item)]> (peersOfStore f)
      | None => peersOfStore f
      end in
    let sr :=
      match storesOfRegion f !! RegionID item with
      | Some stores => <[RegionID item := stores ∖ {[StoreID item]}]> (storesOfRegion f)
      | None => storesOfRegion f
      end in
    mkHotPeerCache (kind f) ps sr
  else
    let peers :=
      match peersOfStore f !! StoreID item with
      | Some peers => peers
      | None => NewCache cacheMaxLen
      end in
    let ps := <[StoreID item := cache_Put peers (RegionID item) item]> (peersOfStore f) in
    let stores :=
      match storesOfRegion f !! RegionID item with
      | Some stores => stores
      | None => ∅
      end in
    mkHotPeerCache (kind f) ps (<[RegionID item := stores ∪ {[StoreID item]}]> (storesOfRegion f)).

Definition getBytesFlow (f : hotPeerCache) (region : RegionInfo) : Z :=
  match kind f with
  | WriteFlow => region_BytesWritten region
  | ReadFlow => region_BytesRead region
  end.

Definition getKeysFlow (f : hotPeerCache) (region : RegionInfo) : Z :=
  match kind f with
  | WriteFlow => region_KeysWritten region
  | ReadFlow => region_KeysRead region
  end.

Definition getOldHotPeerStat (f : hotPeerCache) (regionID storeID : Z) : option HotPeerStat :=
  match peersOfStore f !! storeID with
  | Some hotPeers => cache_Peek hotPeers regionID
  | None => None
  end.

Definition isRegionExpired (f : hotPeerCache) (region : RegionInfo) (storeID : Z) : bool :=
  match kind f with
  | WriteFlow => match GetStorePeer region storeID with None => true | Some _ => false end
  | ReadFlow => negb (GetStoreId (GetLeader region) =? storeID)
  end.

(** The store-ids of the old region and of the new one. *)
Definition getAllStoreIDs (f : hotPeerCache) (region : RegionInfo) : gset Z :=
  let old : gset Z :=
    match storesOfRegion f !! GetID region with
    | Some ids => ids
    | None => ∅
    end in
  List.fold_left
    (fun (storeIDs : gset Z) (peer : Peer) =>
       if FlowKind_eqb (kind f) ReadFlow
          && negb (peer_StoreId peer =? GetStoreId (GetLeader region))
       then storeIDs
       else storeIDs ∪ {[peer_StoreId peer]})
    (GetPeers region) old.

(** The store-ids ranged over by the loop of [CheckRegionFlow]. Go ranges
    over a map in an unspecified order; the order of [elements] stands
    for it, and no statement below depends on it. *)
Definition visitedStores (f : hotPeerCache) (region : RegionInfo) : list Z :=
  elements (getAllStoreIDs f region).

Definition isRegionHotWithPeer (f : hotPeerCache) (region : RegionInfo)
    (peer : option Peer) (hotDegree : Z) : bool :=
  match peer with
  | None => false
  | Some p =>
      match getOldHotPeerStat f (GetID region) (peer_StoreId p) with
      | Some stat => hotDegree <=? HotDegree stat
      | None => false
      end
  end.

Definition isRegionHotWithAnyPeers (f : hotPeerCache) (region : RegionInfo) (hotDegree : Z) : bool :=
  List.existsb (fun peer => isRegionHotWithPeer f region (Some peer) hotDegree) (GetPeers region).

Definition IsRegionHot (f : hotPeerCache) (region : RegionInfo) (hotDegree : Z) : bool :=
  match kind f with
  | WriteFlow => isRegionHotWithAnyPeers f region hotDegree
  | ReadFlow => isRegionHotWithPeer f region (GetLeader region) hotDegree
  end.

(** ** Effects: a state and panic monad

    The state is the cache of one flow kind together with the heap of
    rolling windows; a method with receiver [f *hotPeerCache] is a
    computation of [M]. *)

Inductive Res (A : Type) : Type :=
  | Ok (a : A)
  | Panic.
Arguments Ok {A} a.
Arguments Panic {A}.

Record St := mkSt { st_cache : hotPeerCache; st_heap : Heap }.

Definition M (A : Type) : Type := St → Res (A * St).

#[global] Instance M_ret : MRet M := λ A a s, Ok (a, s).
#[global] Instance M_bind : MBind M := λ A B k m s,
  match m s with
  | Ok (a, s') => k a s'
  | Panic => Panic
  end.

Definition getCache : M hotPeerCache := λ s, Ok (st_cache s, s).
Definition putCache (f : hotPeerCache) : M unit := λ s, Ok (tt, mkSt f (st_heap s)).

(** [&RollingStats{...}]: a fresh location at the end of the heap. *)
Definition alloc (w : RollingStats) : M loc :=
  λ s, Ok (length (st_heap s), mkSt (st_cache s) (st_heap s ++ [w])).

(** [p.Add(n)]: a nil (or dangling) receiver panics. *)
Definition RollingStats_Add (p : option loc) (n : float64) : M unit :=
  λ s,
    match p with
    | None => Panic
    | Some l =>
        match st_heap s !! l with
        | None => Panic
        | Some w => Ok (tt, mkSt (st_cache s) (<[l := rs_Add w n]> (st_heap s)))
        end
    end.

(** [for x := range l { ret = body(x, ret) }]. *)
Fixpoint forRange {A B : Type} (body : A → B → M B) (l : list A) (ret : B) : M B :=
  match l with
  | [] => mret ret
  | x :: l' => ret' ← body x ret; forRange body l' ret'
  end.

Section Impl.

(** Go leaves [uint64(x)] implementation-dependent when the float [x]
    has no integer part in the range of [uint64] (negative, too large,
    infinite or NaN). The development holds for every choice. *)
Variable float_oor : float64 → Z.

Definition uint64_of_float64 (x : float64) : Z :=
  match f64_trunc x with
  | Some z => if (0 <=? z) && (z <=? uint64_max) then z else wrap_uint64 (float_oor x)
  | None => wrap_uint64 (float_oor x)
  end.

(** ** Thresholds *)

Definition calculateWriteHotThresholdWithStore (stats : StoresStats) (storeID : Z) : Z :=
  let writeBytes := fst (GetStoreBytesRate stats storeID) in
  let divisor := f64_of_Z hotPeerMaxCount in
  let hotRegionThreshold := uint64_of_float64 (f64_div writeBytes divisor) in
  if hotRegionThreshold <? hotWriteRegionMinFlowRate
  then hotWriteRegionMinFlowRate
  else hotRegionThreshold.

Definition calculateReadHotThresholdWithStore (stats : StoresStats) (storeID : Z) : Z :=
  let readBytes := snd (GetStoreBytesRate stats storeID) in
  let divisor := f64_of_Z hotPeerMaxCount in
  let hotRegionThreshold := uint64_of_float64 (f64_div readBytes divisor) in
  if hotRegionThreshold <? hotReadRegionMinFlowRate
  then hotReadRegionMinFlowRate
  else hotRegionThreshold.

Definition calcHotThreshold (f : hotPeerCache) (stats : StoresStats) (storeID : Z) : Z :=
  match kind f with
  | WriteFlow => calculateWriteHotThresholdWithStore stats storeID
  | ReadFlow => calculateReadHotThresholdWithStore stats storeID
  end.

(** ** The hot-degree state machine *)

Definition updateHotPeerStat (newItem : HotPeerStat) (oldItem : option HotPeerStat)
    (bytesRate hotThreshold : Z) : M (option HotPeerStat) :=
  let isHot := hotThreshold <=? bytesRate in
  if needDelete newItem then mret (Some newItem)
  else
    branch ←
      match oldItem with
      | Some old =>
          let newItem := set_RollingBytesRate (RollingBytesRate old) newItem in
          if isHot then
            mret (Some (set_AntiCount hotRegionAntiCount
                          (set_HotDegree (int_add (HotDegree old) 1) newItem)))
          else
            let newItem := set_HotDegree (int_sub (HotDegree old) 1) newItem in
            let newItem := set_AntiCount (int_sub (AntiCount old) 1) newItem in
            if AntiCount newItem <? 0
            then mret (Some (set_needDelete true newItem))
            else mret (Some newItem)
      | None =>
          if negb isHot then mret None
          else
            l ← alloc (NewRollingStats rollingWindowsSize);
            let newItem := set_RollingBytesRate (Some l) newItem in
            let newItem := set_AntiCount hotRegionAntiCount newItem in
            mret (Some (set_isNew true newItem))
      end;
    match branch with
    | None => mret None
    | Some newItem =>
        _ ← RollingStats_Add (RollingBytesRate newItem) (f64_of_Z bytesRate);
        mret (Some newItem)
    end.

(** ** [CheckRegionFlow]

    [Denoising] is the package variable of [hot_cache.go]; [now] is the
    reading of the clock during the call ([time.Since] and [time.Now]). *)

(** The rates of one store after the denoising block. The block reads
    only the [LastUpdateTime] of the old stat ([oldTime] is [None] when
    there is no old stat); the result [None] is the [continue] of the
    source. *)
Definition denoise (Denoising : bool) (now : Time) (oldTime : option Time)
    (isExpired : bool) (bytesFlow keysFlow bytesPerSecInit keysPerSecInit : Z)
    : option (Z * Z) :=
  match oldTime with
  | Some last =>
      if Denoising then
        let interval := Seconds (Since now last) in
        if f64_ltb interval (f64_of_Z hotRegionReportMinInterval) && negb isExpired
        then None
        else Some (uint64_of_float64 (f64_div (f64_of_Z bytesFlow) interval),
                   uint64_of_float64 (f64_div (f64_of_Z keysFlow) interval))
      else Some (bytesPerSecInit, keysPerSecInit)
  | None => Some (bytesPerSecInit, keysPerSecInit)
  end.

(** The rates over the nominal heartbeat interval. *)
Definition bytesPerSecInit (f : hotPeerCache) (region : RegionInfo) : Z :=
  uint64_of_float64
    (f64_div (f64_of_Z (getBytesFlow f region)) (f64_of_Z RegionHeartBeatReportInterval)).

Definition keysPerSecInit (f : hotPeerCache) (region : RegionInfo) : Z :=
  uint64_of_float64
    (f64_div (f64_of_Z (getKeysFlow f region)) (f64_of_Z RegionHeartBeatReportInterval)).

(** The struct literal [&HotPeerStat{...}] of the loop body; the fields
    it does not name hold the zero value of their type. *)
Definition newHotPeerStat (f : hotPeerCache) (region : RegionInfo) (storeID : Z)
    (bytesPerSec keysPerSec : Z) (now : Time) (isExpired : bool) : HotPeerStat :=
  {| StoreID := storeID;
     RegionID := GetID region;
     HotDegree := 0;
     AntiCount := 0;
     Kind := kind f;
     BytesRate := bytesPerSec;
     KeysRate := keysPerSec;
     RollingBytesRate := None;
     LastUpdateTime := now;
     Version := GetVersion region;
     needDelete := isExpired;
     isLeader := GetStoreId (GetLeader region) =? storeID;
     isNew := false |}.

(** The body of the loop over the store-ids. *)
Definition checkStore (Denoising : bool) (now : Time) (region : RegionInfo)
    (stats : StoresStats) (bytesFlow keysFlow bytesPerSecInit keysPerSecInit : Z)
    (storeID : Z) (ret : list HotPeerStat) : M (list HotPeerStat) :=
  f ← getCache;
  let isExpired := isRegionExpired f region storeID in
  let oldItem := getOldHotPeerStat f (GetID region) storeID in
  match denoise Denoising now (option_map LastUpdateTime oldItem) isExpired
                bytesFlow keysFlow bytesPerSecInit keysPerSecInit with
  | None => mret ret
  | Some (bytesPerSec, keysPerSec) =>
      let newItem := newHotPeerStat f region storeID bytesPerSec keysPerSec now isExpired in
      let hotThreshold := calcHotThreshold f stats storeID in
      newItem ← updateHotPeerStat newItem oldItem bytesPerSec hotThreshold;
      match newItem with
      | Some item => mret (ret ++ [item])
      | None => mret ret
      end
  end.

Definition CheckRegionFlow (Denoising : bool) (now : Time) (region : RegionInfo)
    (stats : StoresStats) : M (list HotPeerStat) :=
  f ← getCache;
  let storeIDs := visitedStores f region in
  let bytesFlow := getBytesFlow f region in
  let keysFlow := getKeysFlow f region in
  forRange (checkStore Denoising now region stats bytesFlow keysFlow
                       (bytesPerSecInit f region) (keysPerSecInit f region))
           storeIDs [].

(** [Update] as a method: the heap is not touched. *)
Definition UpdateM (item : HotPeerStat) : M unit :=
  f ← getCache; putCache (Update f item).

(** Modelled from the spec: the Check-then-Update cycle of section 2,
    run by the caller of the cache (absent from the sources at hand): the
    candidates of [CheckRegionFlow] are applied by [Update] one after the
    other. *)
Definition heartbeat (Denoising : bool) (now : Time) (region : RegionInfo)
    (stats : StoresStats) : M (list HotPeerStat) :=
  items ← CheckRegionFlow Denoising now region stats;
  _ ← forRange (fun item (_ : unit) => UpdateM item) items tt;
  mret items.

(** ** A pure reading of the loop body

    What one round of the loop of [CheckRegionFlow] appends to the result
    and does to the heap, as plain functions; [checkStore_run] below
    proves that the loop body computes them. *)

Definition hotSuccessor (newItem old : HotPeerStat) : HotPeerStat :=
  set_AntiCount hotRegionAntiCount
    (set_HotDegree (int_add (HotDegree old) 1)
       (set_RollingBytesRate (RollingBytesRate old) newItem)).

Definition coldSuccessor (newItem old : HotPeerStat) : HotPeerStat :=
  let n := set_AntiCount (int_sub (AntiCount old) 1)
             (set_HotDegree (int_sub (HotDegree old) 1)
                (set_RollingBytesRate (RollingBytesRate old) newItem)) in
  if AntiCount n <? 0 then set_needDelete true n else n.

Definition firstHot (newItem : HotPeerStat) (l : loc) : HotPeerStat :=
  set_isNew true
    (set_AntiCount hotRegionAntiCount (set_RollingBytesRate (Some l) newItem)).

Definition storeRates (Denoising : bool) (now : Time) (region : RegionInfo)
    (f : hotPeerCache) (storeID : Z) : option (Z * Z) :=
  denoise Denoising now
    (option_map LastUpdateTime (getOldHotPeerStat f (GetID region) storeID))
    (isRegionExpired f region storeID)
    (getBytesFlow f region) (getKeysFlow f region)
    (bytesPerSecInit f region) (keysPerSecInit f region).

Definition candidate (Denoising : bool) (now : Time) (region : RegionInfo)
    (stats : StoresStats) (f : hotPeerCache) (storeID : Z) (next : loc)
    : option HotPeerStat :=
  match storeRates Denoising now region f storeID with
  | None => None
  | Some (bytesPerSec, keysPerSec) =>
      let isExpired := isRegionExpired f region storeID in
      let newItem := newHotPeerStat f region storeID bytesPerSec keysPerSec now isExpired in
      let isHot := calcHotThreshold f stats storeID <=? bytesPerSec in
      if isExpired then Some newItem
      else
        match getOldHotPeerStat f (GetID region) storeID with
        | Some old =>
            Some (if isHot then hotSuccessor newItem old else coldSuccessor newItem old)
        | None => if isHot then Some (firstHot newItem next) else None
        end
  end.

Definition heapAfter (Denoising : bool) (now : Time) (region : RegionInfo)
    (stats : StoresStats) (f : hotPeerCache) (storeID : Z) (h : Heap) : Heap :=
  match storeRates Denoising now region f storeID with
  | None => h
  | Some (bytesPerSec, _) =>
      if isRegionExpired f region storeID then h
      else
        match getOldHotPeerStat f (GetID region) storeID with
        | Some old =>
            match RollingBytesRate old with
            | Some l =>
                match h !! l with
                | Some w => <[l := rs_Add w (f64_of_Z bytesPerSec)]> h
                | None => h
                end
            | None => h
            end
        | None =>
            if calcHotThreshold f stats storeID <=? bytesPerSec
            then h ++ [rs_Add (NewRollingStats rollingWindowsSize) (f64_of_Z bytesPerSec)]
            else h
        end
  end.

Fixpoint candidates (Denoising : bool) (now : Time) (region : RegionInfo)
    (stats : StoresStats) (f : hotPeerCache) (l : list Z) (h : Heap) : list HotPeerStat :=
  match l with
  | [] => []
  | storeID :: l' =>
      match candidate Denoising now region stats f storeID (length h) with
      | Some item => [item]
      | None => []
      end ++ candidates Denoising now region stats f l'
               (heapAfter Denoising now region stats f storeID h)
  end.

Fixpoint heapsAfter (Denoising : bool) (now : Time) (region : RegionInfo)
    (stats : StoresStats) (f : hotPeerCache) (l : list Z) (h : Heap) : Heap :=
  match l with
  | [] => h
  | storeID :: l' =>
      heapsAfter Denoising now region stats f l'
        (heapAfter Denoising now region stats f storeID h)
  end.

(** The states a cache runs through from its creation, when it is driven
    by evaluations alone ([CheckRegionFlow]) and by heartbeats. *)
Inductive reachable (k : FlowKind) : St → Prop :=
  | reachable_new : reachable k (mkSt (NewHotStoresStats k) [])
  | reachable_check Denoising now region stats s items s' :
      reachable k s →
      CheckRegionFlow Denoising now region stats s = Ok (items, s') →
      reachable k s'
  | reachable_heartbeat Denoising now region stats s items s' :
      reachable k s →
      heartbeat Denoising now region stats s = Ok (items, s') →
      reachable k s'.

(** ** The facade [HotSpotCache]

    One cache per flow kind over the common heap. The metrics counters are
    write-only and left out. *)

Record HotSpotCache := mkHotSpotCache {
  writeFlow : hotPeerCache;
  readFlow : hotPeerCache
}.

Definition NewHotSpotCache : HotSpotCache :=
  mkHotSpotCache (NewHotStoresStats WriteFlow) (NewHotStoresStats ReadFlow).

Definition CheckWrite (Denoising : bool) (now : Time) (region : RegionInfo)
    (stats : StoresStats) (w : HotSpotCache) (h : Heap)
    : Res (list HotPeerStat * (HotSpotCache * Heap)) :=
  match CheckRegionFlow Denoising now region stats (mkSt (writeFlow w) h) with
  | Ok (items, s') => Ok (items, (mkHotSpotCache (st_cache s') (readFlow w), st_heap s'))
  | Panic => Panic
  end.

Definition CheckRead (Denoising : bool) (now : Time) (region : RegionInfo)
    (stats : StoresStats) (w : HotSpotCache) (h : Heap)
    : Res (list HotPeerStat * (HotSpotCache * Heap)) :=
  match CheckRegionFlow Denoising now region stats (mkSt (readFlow w) h) with
  | Ok (items, s') => Ok (items, (mkHotSpotCache (writeFlow w) (st_cache s'), st_heap s'))
  | Panic => Panic
  end.

Definition HotSpotCache_Update (w : HotSpotCache) (item : HotPeerStat) : HotSpotCache :=
  match Kind item with
  | WriteFlow => mkHotSpotCache (Update (writeFlow w) item) (readFlow w)
  | ReadFlow => mkHotSpotCache (writeFlow w) (Update (readFlow w) item)
  end.

End Impl.

(** The out-of-range conversions of the gc compiler on amd64, to run the
    model on concrete inputs: a negative float above -2^63 converts as an
    int64 and is reinterpreted, anything else yields 2^63. *)
Definition float_oor_amd64 (x : float64) : Z :=
  match f64_trunc x with
  | Some z => if (int_min <=? z) && (z <? 0) then z else 2 ^ 63
  | None => 2 ^ 63
  end.

(** ** Predicates used by the statements *)

(** A cached stat owns a window of the heap. *)
Definition valid_window (h : Heap) (p : option loc) : Prop :=
  ∃ l, p = Some l ∧ (l < length h)%nat.

Definition wf_cache (f : hotPeerCache) (h : Heap) : Prop :=
  ∀ storeID regionID o,
    getOldHotPeerStat f regionID storeID = Some o →
    valid_window h (RollingBytesRate o).

Definition wf_St (s : St) : Prop := wf_cache (st_cache s) (st_heap s).

(** (P1) Every cached pair is recorded in the reverse index. *)
Definition forward_consistent (f : hotPeerCache) : Prop :=
  ∀ storeID regionID o,
    getOldHotPeerStat f regionID storeID = Some o →
    ∃ stores, storesOfRegion f !! regionID = Some stores ∧ storeID ∈ stores.

(** The previously observed stores of a region. *)
Definition oldStores (f : hotPeerCache) (regionID : Z) : gset Z :=
  match storesOfRegion f !! regionID with
  | Some ids => ids
  | None => ∅
  end.

(** The current peers of a region that count for a flow kind: all of
    them for writes, those on the leader's store for reads. *)
Definition peersOfKind (k : FlowKind) (region : RegionInfo) : list Peer :=
  match k with
  | WriteFlow => GetPeers region
  | ReadFlow =>
      List.filter (fun p => peer_StoreId p =? GetStoreId (GetLeader region)) (GetPeers region)
  end.

Definition currentStores (k : FlowKind) (region : RegionInfo) : gset Z :=
  list_to_set (List.map peer_StoreId (peersOfKind k region)).

(** The interval of the denoising block is below the minimum. *)
Definition reportTooFast (now last : Time) : bool :=
  f64_ltb (Seconds (Since now last)) (f64_of_Z hotRegionReportMinInterval).

(** Floats that are zero or negative, and floats of a given sign. *)
Definition f64_nonpos (x : float64) : Prop :=
  match x with
  | S754_zero _ => True
  | S754_infinity s | S754_finite s _ _ => s = true
  | S754_nan => False
  end.

Definition f64_signed (sx : bool) (x : float64) : Prop :=
  match x with
  | S754_zero s | S754_infinity s | S754_finite s _ _ => s = sx
  | S754_nan => False
  end.

(** ** Concrete runs

    The scenarios of section 8 of the spec, on the amd64 conversions:
    region 1 on the stores 1, 2 and 3 with its leader on store 1 for the
    write flow, region 2 on the stores 4, 5 and 6 with its leader on
    store 4 for the read flow; no store statistics, so that the thresholds
    are the minimum rates. *)

Definition MiB : Z := 1024 * 1024.

Definition sec (n : Z) : Time := n * Second.

Definition exec (m : M (list HotPeerStat)) (s : St) : list HotPeerStat * St :=
  match m s with
  | Ok r => r
  | Panic => ([], s)
  end.

Definition writeRegion (peers : list Peer) (bytes keys : Z) : RegionInfo :=
  mkRegionInfo 1 7 peers (Some (mkPeer 11 1)) bytes keys 0 0.

Definition peers123 : list Peer := [mkPeer 11 1; mkPeer 12 2; mkPeer 13 3].

Definition hotWrite : RegionInfo := writeRegion peers123 (30 * MiB) 30000.
Definition coldWrite : RegionInfo := writeRegion peers123 1024 10.
(** Region 1 after its peer on store 3 was removed. *)
Definition shrunkWrite : RegionInfo :=
  writeRegion [mkPeer 11 1; mkPeer 12 2] 6000 10.

Definition readRegion (leader : option Peer) : RegionInfo :=
  mkRegionInfo 2 7 [mkPeer 24 4; mkPeer 25 5; mkPeer 26 6] leader 0 0 (20 * MiB) 20000.

Definition noStats : StoresStats := ∅.

Definition beat (Denoising : bool) (t : Z) (region : RegionInfo) (s : St)
    : list HotPeerStat * St :=
  exec (heartbeat float_oor_amd64 Denoising (sec t) region noStats) s.

Definition check (Denoising : bool) (t : Z) (region : RegionInfo) (s : St)
    : list HotPeerStat * St :=
  exec (CheckRegionFlow float_oor_amd64 Denoising (sec t) region noStats) s.

(** Write flow: empty, after a hot heartbeat at 0 s, after a second one
    at 10 s, after a cold one at 20 s, after a second cold one at 30 s. *)
Definition w0 : St := mkSt (NewHotStoresStats WriteFlow) [].
Definition w1 : St := snd (beat true 0 hotWrite w0).
Definition w2 : St := snd (beat true 10 hotWrite w1).
Definition w3 : St := snd (beat true 20 coldWrite w2).
Definition w4 : St := snd (beat true 30 coldWrite w3).

(** The stat cached for region 1 on a store in [w1]. *)
Definition cached_w1 (storeID : Z) (window : nat) (leader : bool) : HotPeerStat :=
  mkHotPeerStat storeID 1 0 1 WriteFlow 524288 500 (Some window) (sec 0) 7
                false leader true.

(** The stat cached for region 1 on a store in [w2]. *)
Definition cached_w2 (storeID : Z) (window : nat) (leader : bool) : HotPeerStat :=
  mkHotPeerStat storeID 1 1 1 WriteFlow 3145728 3000 (Some window) (sec 10) 7
                false leader false.

(** Read flow: empty, after a hot heartbeat at 0 s. *)
Definition r0 : St := mkSt (NewHotStoresStats ReadFlow) [].
Definition r1 : St := snd (beat true 0 (readRegion (Some (mkPeer 24 4))) r0).

(** ** The queries of the facade

    [RegionStats], [RandHotRegionFromStore] and [IsRegionHot] of
    [HotSpotCache]. *)

Definition flowOf (w : HotSpotCache) (k : FlowKind) : hotPeerCache :=
  match k with
  | WriteFlow => writeFlow w
  | ReadFlow => readFlow w
  end.

(** [RegionStats]: for every store of the kind's cache, the values of
    [peers.Elems()]. *)
Definition RegionStats (w : HotSpotCache) (k : FlowKind) : gmap Z (list HotPeerStat) :=
  fmap cache_Elems (peersOfStore (flowOf w k)).

(** The loop [for _, i := range rand.Perm(len(stats))] over the outcome
    [order] of [rand.Perm]; an index out of range panics. *)
Fixpoint pickHot (stats : list HotPeerStat) (hotDegree : Z) (order : list nat)
    : Res (option HotPeerStat) :=
  match order with
  | [] => Ok None
  | i :: order' =>
      match stats !! i with
      | Some stat =>
          if hotDegree <=? HotDegree stat then Ok (Some stat)
          else pickHot stats hotDegree order'
      | None => Panic
      end
  end.

(** [randPerm n] stands for the call [rand.Perm(n)]. *)
Definition RandHotRegionFromStore (randPerm : nat → list nat) (w : HotSpotCache)
    (storeID : Z) (k : FlowKind) (hotDegree : Z) : Res (option HotPeerStat) :=
  match RegionStats w k !! storeID with
  | Some stats => pickHot stats hotDegree (randPerm (length stats))
  | None => Ok None
  end.

Definition HotSpotCache_IsRegionHot (w : HotSpotCache) (region : RegionInfo)
    (hotDegree : Z) : bool :=
  IsRegionHot (writeFlow w) region hotDegree || IsRegionHot (readFlow w) region hotDegree.

(** The counter that [HotSpotCache.Update] increments through
    [incMetrics]: its name, the store and the kind of the item. *)
Module Metrics.
Import String.
#[local] Open Scope string_scope.

Definition remove_item : string := "remove_item".
Definition add_item : string := "add_item".
Definition update_item : string := "update_item".

Definition updateAction (item : HotPeerStat) : string :=
  if IsNeedDelete item then remove_item
  else if IsNew item then add_item
  else update_item.

Definition updateEvent (item : HotPeerStat) : string * Z * FlowKind :=
  (updateAction item, StoreID item, Kind item).

End Metrics.

(** ** Earlier variants kept in [hot_cache.go]

    The file also holds the thresholds with the divisor written
    [float64(storeStatCacheMaxLen) * 2], and the loop of [CheckRegionFlow]
    before [getOldHotPeerStat] was factored out, with a state machine that
    takes [isHot] instead of the threshold. *)

Definition storeStatCacheMaxLen : Z := 200.

(** The earlier [HotSpotCache.IsRegionHot], which asks the helpers of the
    two caches directly. *)
Definition HotSpotCache_IsRegionHot_v0 (w : HotSpotCache) (region : RegionInfo)
    (hotThreshold : Z) : bool :=
  if isRegionHotWithAnyPeers (writeFlow w) region hotThreshold then true
  else isRegionHotWithPeer (readFlow w) region (GetLeader region) hotThreshold.

Definition f64_mul (x y : float64) : float64 := SFmul f64_prec f64_emax x y.

Section Variants.

Variable float_oor : float64 → Z.

Definition calculateWriteHotThresholdWithStore_v0 (stats : StoresStats) (storeID : Z) : Z :=
  let writeBytes := fst (GetStoreBytesRate stats storeID) in
  let divisor := f64_mul (f64_of_Z storeStatCacheMaxLen) (f64_of_Z 2) in
  let hotRegionThreshold := uint64_of_float64 float_oor (f64_div writeBytes divisor) in
  if hotRegionThreshold <? hotWriteRegionMinFlowRate
  then hotWriteRegionMinFlowRate
  else hotRegionThreshold.

Definition calculateReadHotThresholdWithStore_v0 (stats : StoresStats) (storeID : Z) : Z :=
  let readBytes := snd (GetStoreBytesRate stats storeID) in
  let divisor := f64_mul (f64_of_Z storeStatCacheMaxLen) (f64_of_Z 2) in
  let hotRegionThreshold := uint64_of_float64 float_oor (f64_div readBytes divisor) in
  if hotRegionThreshold <? hotReadRegionMinFlowRate
  then hotReadRegionMinFlowRate
  else hotRegionThreshold.

Definition updateHotPeerStat_v1 (newItem : HotPeerStat) (oldItem : option HotPeerStat)
    (bytesRate keysRate : Z) (isHot : bool) : M (option HotPeerStat) :=
  if needDelete newItem then mret (Some newItem)
  else
    branch ←
      match oldItem with
      | Some old =>
          let newItem := set_RollingBytesRate (RollingBytesRate old) newItem in
          if isHot then
            mret (Some (set_AntiCount hotRegionAntiCount
                          (set_HotDegree (int_add (HotDegree old) 1) newItem)))
          else
            let newItem := set_HotDegree (int_sub (HotDegree old) 1) newItem in
            let newItem := set_AntiCount (int_sub (AntiCount old) 1) newItem in
            if AntiCount newItem <? 0
            then mret (Some (set_needDelete true newItem))
            else mret (Some newItem)
      | None =>
          if negb isHot then mret None
          else
            l ← alloc (NewRollingStats rollingWindowsSize);
            let newItem := set_RollingBytesRate (Some l) newItem in
            let newItem := set_AntiCount hotRegionAntiCount newItem in
            mret (Some (set_isNew true newItem))
      end;
    match branch with
    | None => mret None
    | Some newItem =>
        _ ← RollingStats_Add (RollingBytesRate newItem) (f64_of_Z bytesRate);
        mret (Some newItem)
    end.

Definition calcHotThreshold_v1 (f : hotPeerCache) (storeID : Z) (stats : StoresStats) : Z :=
  match kind f with
  | WriteFlow => calculateWriteHotThresholdWithStore_v0 stats storeID
  | ReadFlow => calculateReadHotThresholdWithStore_v0 stats storeID
  end.

(** The loop body of the earlier [CheckRegionFlow]: the old stat is looked
    up in place, and [isRegionExpired] is asked once inside the denoising
    block and once after it. *)
Definition checkStore_v1 (Denoising : bool) (now : Time) (region : RegionInfo)
    (stats : StoresStats) (bytesFlow keysFlow bytesPerSecInit keysPerSecInit : Z)
    (storeID : Z) (ret : list HotPeerStat) : M (list HotPeerStat) :=
  f ← getCache;
  let finish (oldItem : option HotPeerStat) (bytesPerSec keysPerSec : Z) :=
    let isExpired := isRegionExpired f region storeID in
    let isHot := calcHotThreshold_v1 f storeID stats <=? bytesPerSec in
    let newItem := newHotPeerStat f region storeID bytesPerSec keysPerSec now isExpired in
    newItem ← updateHotPeerStat_v1 newItem oldItem bytesPerSec keysPerSec isHot;
    match newItem with
    | Some item => mret (ret ++ [item])
    | None => mret ret
    end in
  match peersOfStore f !! storeID with
  | Some hotStoreStats =>
      match cache_Peek hotStoreStats (GetID region) with
      | Some old =>
          if Denoising then
            let interval := Seconds (Since now (LastUpdateTime old)) in
            if f64_ltb interval (f64_of_Z hotRegionReportMinInterval)
               && negb (isRegionExpired f region storeID)
            then mret ret
            else finish (Some old)
                   (uint64_of_float64 float_oor (f64_div (f64_of_Z bytesFlow) interval))
                   (uint64_of_float64 float_oor (f64_div (f64_of_Z keysFlow) interval))
          else finish (Some old) bytesPerSecInit keysPerSecInit
      | None => finish None bytesPerSecInit keysPerSecInit
      end
  | None => finish None bytesPerSecInit keysPerSecInit
  end.

Definition CheckRegionFlow_v1 (Denoising : bool) (now : Time) (region : RegionInfo)
    (stats : StoresStats) : M (list HotPeerStat) :=
  f ← getCache;
  let storeIDs := visitedStores f region in
  let bytesFlow := getBytesFlow f region in
  let keysFlow := getKeysFlow f region in
  forRange (checkStore_v1 Denoising now region stats bytesFlow keysFlow
                          (bytesPerSecInit float_oor f region)
                          (keysPerSecInit float_oor f region))
           storeIDs [].

End Variants.

(** The minimum flow rate of a kind. *)
Definition minFlowRate (k : FlowKind) : Z :=
  match k with
  | WriteFlow => hotWriteRegionMinFlowRate
  | ReadFlow => hotReadRegionMinFlowRate
  end.

(** ** Invariants of the cached stats *)

(** What holds of the stat cached under a key. *)
Definition stat_ok (f : hotPeerCache) (storeID regionID : Z) (o : HotPeerStat) : Prop :=
  StoreID o = storeID ∧ RegionID o = regionID ∧ Kind o = kind f
  ∧ needDelete o = false
  ∧ 0 ≤ AntiCount o ≤ hotRegionAntiCount
  ∧ is_int (HotDegree o)
  ∧ (kind f = ReadFlow → isLeader o = true).

Definition cache_ok (f : hotPeerCache) : Prop :=
  ∀ storeID regionID o,
    getOldHotPeerStat f regionID storeID = Some o → stat_ok f storeID regionID o.

(** No two cached stats share a window. *)
Definition windows_apart (f : hotPeerCache) : Prop :=
  ∀ s r o s' r' o',
    getOldHotPeerStat f r s = Some o → getOldHotPeerStat f r' s' = Some o' →
    RollingBytesRate o = RollingBytesRate o' → s = s' ∧ r = r'.

(** * Properties *)

(** ** The bounded container *)

Lemma entries_find_cons k e l :
  entries_find k (e :: l) = if fst e =? k then Some (snd e) else entries_find k l.
Proof. unfold entries_find. simpl. by destruct (fst e =? k). Qed.

Lemma entries_find_remove_eq k l : entries_find k (entries_remove k l) = None.
Proof.
  induction l as [|e l IH]; [done|].
  simpl. destruct (fst e =? k) eqn:E; simpl; [done|].
  by rewrite entries_find_cons, E.
Qed.

Lemma entries_find_remove_ne k k' l :
  k' ≠ k → entries_find k' (entries_remove k l) = entries_find k' l.
Proof.
  intros Hne. induction l as [|e l IH]; [done|].
  simpl. rewrite entries_find_cons.
  destruct (fst e =? k) eqn:E; simpl.
  - apply Z.eqb_eq in E. destruct (fst e =? k') eqn:E'; [|done].
    apply Z.eqb_eq in E'. congruence.
  - by rewrite entries_find_cons, IH.
Qed.

Lemma entries_contains_false k l :
  entries_contains k l = false → entries_find k l = None.
Proof.
  induction l as [|e l IH]; [done|].
  unfold entries_contains in *. simpl. rewrite entries_find_cons.
  destruct (fst e =? k); simpl; [done|apply IH].
Qed.

Lemma entries_find_removelast k l v :
  entries_find k (List.removelast l) = Some v → entries_find k l = Some v.
Proof.
  induction l as [|e l IH]; [done|].
  destruct l as [|e' l]; [done|].
  change (List.removelast (e :: e' :: l)) with (e :: List.removelast (e' :: l)).
  rewrite !(entries_find_cons k e). destruct (fst e =? k); [done|apply IH].
Qed.

Lemma cache_Peek_ensureSpace c k v :
  cache_Peek (cache_ensureSpace c) k = Some v → cache_Peek c k = Some v.
Proof.
  unfold cache_ensureSpace, cache_Peek.
  destruct (cache_cap c <=? cache_Len c)%nat; [|done].
  destruct (cache_a1 c) as [|e a1] eqn:Ha1; cbn [cache_a1 cache_main].
  - destruct (entries_find k (List.removelast (cache_main c))) eqn:E; [|done].
    intros [= ->]. by rewrite (entries_find_removelast _ _ _ E).
  - destruct (entries_find k (cache_main c)); [done|].
    apply entries_find_removelast.
Qed.

Lemma cache_Peek_Put_eq c k v : cache_Peek (cache_Put c k v) k = Some v.
Proof.
  unfold cache_Put, cache_Peek.
  destruct (entries_contains k (cache_main c)) eqn:Hm; simpl.
  { by rewrite entries_find_cons, Z.eqb_refl. }
  destruct (entries_contains k (cache_a1 c)) eqn:Ha; simpl.
  { by rewrite entries_find_cons, Z.eqb_refl. }
  assert (entries_find k (cache_main (cache_ensureSpace c)) = None) as ->.
  { destruct (entries_find k (cache_main (cache_ensureSpace c))) eqn:E; [|done].
    pose proof (entries_contains_false _ _ Hm) as Hn.
    unfold cache_ensureSpace in E.
    destruct (cache_cap c <=? cache_Len c)%nat; [|congruence].
    destruct (cache_a1 c); cbn [cache_a1 cache_main] in E; [|congruence].
    apply entries_find_removelast in E. congruence. }
  by rewrite entries_find_cons, Z.eqb_refl.
Qed.

Lemma cache_Peek_Put_ne c k v k' o :
  k' ≠ k → cache_Peek (cache_Put c k v) k' = Some o → cache_Peek c k' = Some o.
Proof.
  intros Hne. assert ((k =? k') = false) as Hkk by (apply Z.eqb_neq; congruence).
  unfold cache_Put.
  destruct (entries_contains k (cache_main c)) eqn:Hm.
  { unfold cache_Peek. simpl.
    by rewrite entries_find_cons; simpl; rewrite Hkk, entries_find_remove_ne. }
  destruct (entries_contains k (cache_a1 c)) eqn:Ha.
  { unfold cache_Peek. simpl.
    by rewrite entries_find_cons; simpl; rewrite Hkk, entries_find_remove_ne. }
  intros H. apply cache_Peek_ensureSpace. revert H.
  unfold cache_Peek. simpl. by rewrite entries_find_cons; simpl; rewrite Hkk.
Qed.

Lemma cache_Peek_Remove_eq c k : cache_Peek (cache_Remove c k) k = None.
Proof. unfold cache_Peek, cache_Remove. simpl. by rewrite !entries_find_remove_eq. Qed.

Lemma cache_Peek_Remove_ne c k k' :
  k' ≠ k → cache_Peek (cache_Remove c k) k' = cache_Peek c k'.
Proof.
  intros Hne. unfold cache_Peek, cache_Remove. simpl.
  by rewrite !entries_find_remove_ne.
Qed.

(** ** [Update] and the two indices *)

Lemma getOld_Update_put f item :
  IsNeedDelete item = false →
  getOldHotPeerStat (Update f item) (RegionID item) (StoreID item) = Some item.
Proof.
  intros Hd. unfold Update, getOldHotPeerStat. rewrite Hd.
  cbn [peersOfStore]. rewrite lookup_insert_eq. apply cache_Peek_Put_eq.
Qed.

Lemma getOld_Update_delete f item :
  IsNeedDelete item = true →
  getOldHotPeerStat (Update f item) (RegionID item) (StoreID item) = None.
Proof.
  intros Hd. unfold Update, getOldHotPeerStat. rewrite Hd.
  cbn [peersOfStore].
  destruct (peersOfStore f !! StoreID item) as [peers|] eqn:E.
  - rewrite lookup_insert_eq. apply cache_Peek_Remove_eq.
  - by rewrite E.
Qed.

(** A stat cached after [Update] is the stat just put, or was cached
    before: the container may drop keys but invents none. *)
Lemma getOld_Update_inv f item regionID storeID o :
  getOldHotPeerStat (Update f item) regionID storeID = Some o →
  (IsNeedDelete item = false ∧ storeID = StoreID item ∧ regionID = RegionID item ∧ o = item)
  ∨ (getOldHotPeerStat f regionID storeID = Some o
     ∧ (IsNeedDelete item = true → ¬ (storeID = StoreID item ∧ regionID = RegionID item))).
Proof.
  unfold Update, getOldHotPeerStat.
  destruct (IsNeedDelete item) eqn:Hd; cbn [peersOfStore].
  - destruct (peersOfStore f !! StoreID item) as [peers|] eqn:E.
    + destruct (decide (storeID = StoreID item)) as [->|Hs].
      * rewrite lookup_insert_eq, E.
        destruct (decide (regionID = RegionID item)) as [->|Hr].
        { by rewrite cache_Peek_Remove_eq. }
        rewrite cache_Peek_Remove_ne by done. intros H. right. split; [done|].
        intros _ [_ ?]. done.
      * rewrite lookup_insert_ne by done. intros H. right. split; [done|].
        intros _ [? _]. done.
    + intros H. right. split; [done|]. intros _ [-> ->]. by rewrite E in H.
  - destruct (decide (storeID = StoreID item)) as [->|Hs].
    + rewrite lookup_insert_eq.
      destruct (decide (regionID = RegionID item)) as [->|Hr].
      * rewrite cache_Peek_Put_eq. intros [= <-]. by left.
      * intros H. apply cache_Peek_Put_ne in H; [|done]. right. split; [|done].
        destruct (peersOfStore f !! StoreID item); [done|].
        by unfold NewCache, cache_Peek in H.
    + rewrite lookup_insert_ne by done. intros H. right. by split.
Qed.

Lemma getOld_Update_other_store f item regionID storeID :
  storeID ≠ StoreID item →
  getOldHotPeerStat (Update f item) regionID storeID = getOldHotPeerStat f regionID storeID.
Proof.
  intros Hs. unfold Update, getOldHotPeerStat.
  destruct (IsNeedDelete item); cbn [peersOfStore].
  - destruct (peersOfStore f !! StoreID item); [|done].
    by rewrite lookup_insert_ne.
  - by rewrite lookup_insert_ne.
Qed.

Lemma kind_Update f item : kind (Update f item) = kind f.
Proof. unfold Update. by destruct (IsNeedDelete item). Qed.

Lemma oldStores_Update_put f item :
  IsNeedDelete item = false →
  oldStores (Update f item) (RegionID item) = oldStores f (RegionID item) ∪ {[StoreID item]}.
Proof.
  intros Hd. unfold oldStores, Update. rewrite Hd. cbn [storesOfRegion].
  by rewrite lookup_insert_eq.
Qed.

Lemma oldStores_Update_delete f item :
  IsNeedDelete item = true →
  oldStores (Update f item) (RegionID item) = oldStores f (RegionID item) ∖ {[StoreID item]}.
Proof.
  intros Hd. unfold oldStores, Update. rewrite Hd. cbn [storesOfRegion].
  destruct (storesOfRegion f !! RegionID item) eqn:E.
  - by rewrite lookup_insert_eq.
  - rewrite E. symmetry. by apply subseteq_empty_difference_L.
Qed.

Lemma oldStores_Update_other f item regionID :
  regionID ≠ RegionID item →
  oldStores (Update f item) regionID = oldStores f regionID.
Proof.
  intros Hr. unfold oldStores, Update.
  destruct (IsNeedDelete item); cbn [storesOfRegion].
  - destruct (storesOfRegion f !! RegionID item); [|done].
    by rewrite lookup_insert_ne.
  - by rewrite lookup_insert_ne.
Qed.

Lemma forward_consistent_oldStores f :
  forward_consistent f ↔
  ∀ storeID regionID o,
    getOldHotPeerStat f regionID storeID = Some o → storeID ∈ oldStores f regionID.
Proof.
  unfold forward_consistent, oldStores. split; intros H s r o Ho.
  - destruct (H s r o Ho) as (stores & -> & ?). done.
  - specialize (H s r o Ho). destruct (storesOfRegion f !! r); [eauto|set_solver].
Qed.

Lemma forward_consistent_empty k : forward_consistent (NewHotStoresStats k).
Proof. intros s r o. unfold getOldHotPeerStat. simpl. by rewrite lookup_empty. Qed.

Lemma forward_consistent_Update f item :
  forward_consistent f → forward_consistent (Update f item).
Proof.
  rewrite !forward_consistent_oldStores. intros H s r o Ho.
  apply getOld_Update_inv in Ho as [(Hd & -> & -> & ->)|[Ho Hne]].
  - rewrite oldStores_Update_put by done. set_solver.
  - specialize (H s r o Ho).
    destruct (decide (r = RegionID item)) as [->|Hr].
    + destruct (IsNeedDelete item) eqn:Hd.
      * rewrite oldStores_Update_delete by done.
        assert (s ≠ StoreID item) by (intros ->; by apply Hne).
        set_solver.
      * rewrite oldStores_Update_put by done. set_solver.
    + by rewrite oldStores_Update_other.
Qed.

(** C9. Starting from the empty cache, every sequence of [Update]s leads
    to a state in which each pair (store, region) cached in
    [peersOfStore] is recorded in [storesOfRegion]; on such a state an
    [Update] without [needDelete] puts the pair into both indices and an
    [Update] with [needDelete] removes it from both. *)
Theorem Update_keeps_forward_consistency (k : FlowKind) (items : list HotPeerStat) :
  let f := fold_left Update items (NewHotStoresStats k) in
  (∀ storeID regionID o,
      getOldHotPeerStat f regionID storeID = Some o →
      ∃ stores, storesOfRegion f !! regionID = Some stores ∧ storeID ∈ stores)
  ∧ (∀ item, IsNeedDelete item = false →
       getOldHotPeerStat (Update f item) (RegionID item) (StoreID item) = Some item
       ∧ StoreID item ∈ oldStores (Update f item) (RegionID item))
  ∧ (∀ item, IsNeedDelete item = true →
       getOldHotPeerStat (Update f item) (RegionID item) (StoreID item) = None
       ∧ StoreID item ∉ oldStores (Update f item) (RegionID item)).
Proof.
  intros f. split; [|split].
  - change (forward_consistent f). subst f.
    generalize (forward_consistent_empty k).
    generalize (NewHotStoresStats k).
    induction items as [|item items IH]; intros f0 H0; [done|].
    simpl. by apply IH, forward_consistent_Update.
  - intros item Hd. split; [by apply getOld_Update_put|].
    rewrite oldStores_Update_put by done. set_solver.
  - intros item Hd. split; [by apply getOld_Update_delete|].
    rewrite oldStores_Update_delete by done. set_solver.
Qed.

(** ** The candidate stores *)

Lemma getAllStoreIDs_fold (k : FlowKind) (leaderStore : Z) (peers : list Peer) (acc : gset Z) :
  List.fold_left
    (fun (storeIDs : gset Z) (peer : Peer) =>
       if FlowKind_eqb k ReadFlow && negb (peer_StoreId peer =? leaderStore)
       then storeIDs
       else storeIDs ∪ {[peer_StoreId peer]})
    peers acc
  = acc ∪ list_to_set
            (List.map peer_StoreId
               (match k with
                | WriteFlow => peers
                | ReadFlow => List.filter (fun p => peer_StoreId p =? leaderStore) peers
                end)).
Proof.
  revert acc. induction peers as [|p peers IH]; intros acc.
  - destruct k; simpl; set_solver.
  - simpl. rewrite IH. destruct k; simpl.
    + set_solver.
    + destruct (peer_StoreId p =? leaderStore); simpl; set_solver.
Qed.

Lemma getAllStoreIDs_union f region :
  getAllStoreIDs f region = oldStores f (GetID region) ∪ currentStores (kind f) region.
Proof. unfold getAllStoreIDs. by rewrite getAllStoreIDs_fold. Qed.

Lemma elem_of_currentStores k region s :
  s ∈ currentStores k region ↔
  ∃ p, p ∈ GetPeers region ∧ peer_StoreId p = s
       ∧ (k = ReadFlow → s = GetStoreId (GetLeader region)).
Proof.
  unfold currentStores. rewrite elem_of_list_to_set, list_elem_of_In, in_map_iff.
  destruct k; simpl.
  - split.
    + intros (p & <- & Hp). exists p. by rewrite list_elem_of_In.
    + intros (p & Hp & <- & _). exists p. by rewrite <- list_elem_of_In.
  - split.
    + intros (p & <- & Hp). apply filter_In in Hp as [Hp He].
      exists p. rewrite list_elem_of_In. apply Z.eqb_eq in He. done.
    + intros (p & Hp & <- & He). exists p. split; [done|].
      apply filter_In. rewrite <- list_elem_of_In. split; [done|].
      apply Z.eqb_eq. by apply He.
Qed.

(** C8. The stores visited by [CheckRegionFlow] are the previously
    observed stores of the region together with the stores of its current
    peers, all of them for writes and those on the leader's store for
    reads; each is visited once, and a previously observed store is
    visited whatever the current peers are. *)
Theorem visitedStores_union (f : hotPeerCache) (region : RegionInfo) :
  getAllStoreIDs f region = oldStores f (GetID region) ∪ currentStores (kind f) region
  ∧ NoDup (visitedStores f region)
  ∧ (∀ s, s ∈ visitedStores f region ↔
          s ∈ oldStores f (GetID region)
          ∨ ∃ p, p ∈ GetPeers region ∧ peer_StoreId p = s
                 ∧ (kind f = ReadFlow → s = GetStoreId (GetLeader region)))
  ∧ (∀ s, s ∈ oldStores f (GetID region) → s ∈ visitedStores f region).
Proof.
  split; [apply getAllStoreIDs_union|]. split; [apply NoDup_elements|].
  assert (∀ s, s ∈ visitedStores f region ↔
               s ∈ oldStores f (GetID region) ∨ s ∈ currentStores (kind f) region) as Hv.
  { intros s. unfold visitedStores.
    rewrite elem_of_elements, getAllStoreIDs_union. set_solver. }
  split.
  - intros s. rewrite Hv. by rewrite elem_of_currentStores.
  - intros s Hs. apply Hv. by left.
Qed.

Section Properties.

Variable float_oor : float64 → Z.

(** ** Thresholds *)

Lemma uint64_of_float64_zero b : uint64_of_float64 float_oor (S754_zero b) = 0.
Proof. reflexivity. Qed.

Lemma f64_div_zero b : f64_div (S754_zero b) (f64_of_Z hotPeerMaxCount) = S754_zero b.
Proof. by destruct b. Qed.

(** C6. The write threshold of a store is the larger of its write byte
    rate divided by D = 400 (as a [uint64]) and 16 KiB/s, the read
    threshold the larger of its read byte rate divided by D and
    128 KiB/s; a store whose byte rate is 0 gets exactly the minimum of
    its kind. *)
Theorem hot_threshold_is_max (stats : StoresStats) (storeID : Z) :
  hotPeerMaxCount = 400
  ∧ calculateWriteHotThresholdWithStore float_oor stats storeID
    = Z.max (uint64_of_float64 float_oor
               (f64_div (fst (GetStoreBytesRate stats storeID)) (f64_of_Z 400)))
            (16 * 1024)
  ∧ calculateReadHotThresholdWithStore float_oor stats storeID
    = Z.max (uint64_of_float64 float_oor
               (f64_div (snd (GetStoreBytesRate stats storeID)) (f64_of_Z 400)))
            (128 * 1024)
  ∧ (∀ b, fst (GetStoreBytesRate stats storeID) = S754_zero b →
          calculateWriteHotThresholdWithStore float_oor stats storeID = 16 * 1024)
  ∧ (∀ b, snd (GetStoreBytesRate stats storeID) = S754_zero b →
          calculateReadHotThresholdWithStore float_oor stats storeID = 128 * 1024).
Proof.
  split; [done|].
  unfold calculateWriteHotThresholdWithStore, calculateReadHotThresholdWithStore,
    hotWriteRegionMinFlowRate, hotReadRegionMinFlowRate.
  change hotPeerMaxCount with 400.
  repeat split.
  - destruct (Z.ltb_spec
      (uint64_of_float64 float_oor
         (f64_div (fst (GetStoreBytesRate stats storeID)) (f64_of_Z 400))) (16 * 1024)); lia.
  - destruct (Z.ltb_spec
      (uint64_of_float64 float_oor
         (f64_div (snd (GetStoreBytesRate stats storeID)) (f64_of_Z 400))) (128 * 1024)); lia.
  - intros b ->. change 400 with hotPeerMaxCount.
    by rewrite f64_div_zero, uint64_of_float64_zero.
  - intros b ->. change 400 with hotPeerMaxCount.
    by rewrite f64_div_zero, uint64_of_float64_zero.
Qed.

(** ** The state machine, case by case *)

Lemma bind_run {A B : Type} (m : M A) (k : A → M B) (s : St) :
  (m ≫= k) s = match m s with
               | Ok (a, s') => k a s'
               | Panic => Panic
               end.
Proof. reflexivity. Qed.

Lemma ret_run {A : Type} (a : A) (s : St) : (mret a : M A) s = Ok (a, s).
Proof. reflexivity. Qed.

Lemma alloc_run w f h : alloc w (mkSt f h) = Ok (length h, mkSt f (h ++ [w])).
Proof. reflexivity. Qed.

Lemma RollingStats_Add_run l n f h :
  RollingStats_Add (Some l) n (mkSt f h)
  = match h !! l with
    | Some w => Ok (tt, mkSt f (<[l := rs_Add w n]> h))
    | None => Panic
    end.
Proof. reflexivity. Qed.

Ltac mrun :=
  repeat first
    [ rewrite bind_run
    | rewrite ret_run
    | rewrite alloc_run
    | rewrite RollingStats_Add_run
    | progress (cbn [negb RollingBytesRate AntiCount set_isNew set_needDelete
                     set_AntiCount set_HotDegree set_RollingBytesRate]) ].

Lemma updateHotPeerStat_expired newItem oldItem bytesRate hotThreshold s :
  needDelete newItem = true →
  updateHotPeerStat newItem oldItem bytesRate hotThreshold s = Ok (Some newItem, s).
Proof. intros H. unfold updateHotPeerStat. by rewrite H. Qed.

Lemma updateHotPeerStat_drop newItem bytesRate hotThreshold s :
  needDelete newItem = false → bytesRate < hotThreshold →
  updateHotPeerStat newItem None bytesRate hotThreshold s = Ok (None, s).
Proof.
  intros H Hlt. unfold updateHotPeerStat. rewrite H.
  destruct (Z.leb_spec hotThreshold bytesRate); [lia|]. reflexivity.
Qed.

Lemma updateHotPeerStat_first newItem bytesRate hotThreshold f h :
  needDelete newItem = false → hotThreshold ≤ bytesRate →
  updateHotPeerStat newItem None bytesRate hotThreshold (mkSt f h)
  = Ok (Some (firstHot newItem (length h)),
        mkSt f (h ++ [rs_Add (NewRollingStats rollingWindowsSize) (f64_of_Z bytesRate)])).
Proof.
  intros H Hle. unfold updateHotPeerStat. rewrite H.
  destruct (Z.leb_spec hotThreshold bytesRate); [|lia].
  mrun. rewrite list_lookup_middle by done.
  replace (length h) with (length h + 0)%nat at 2 by lia.
  rewrite insert_app_r. reflexivity.
Qed.

Lemma updateHotPeerStat_old newItem old l w bytesRate hotThreshold f h :
  needDelete newItem = false →
  RollingBytesRate old = Some l → h !! l = Some w →
  updateHotPeerStat newItem (Some old) bytesRate hotThreshold (mkSt f h)
  = Ok (Some (if hotThreshold <=? bytesRate
              then hotSuccessor newItem old
              else coldSuccessor newItem old),
        mkSt f (<[l := rs_Add w (f64_of_Z bytesRate)]> h)).
Proof.
  intros H Hl Hw. unfold updateHotPeerStat. rewrite H.
  destruct (hotThreshold <=? bytesRate).
  - unfold hotSuccessor. mrun. rewrite !Hl. mrun. rewrite Hw. reflexivity.
  - unfold coldSuccessor. mrun.
    destruct (int_sub (AntiCount old) 1 <? 0);
      mrun; rewrite !Hl; mrun; rewrite Hw; reflexivity.
Qed.

(** ** The loop body and the loop compute the pure reading *)

Lemma valid_window_lookup h p :
  valid_window h p → ∃ l w, p = Some l ∧ h !! l = Some w.
Proof.
  intros (l & -> & Hl). destruct (lookup_lt_is_Some_2 h l Hl) as [w Hw]. eauto.
Qed.

Lemma checkStore_run Denoising now region stats f h storeID ret :
  wf_cache f h →
  checkStore float_oor Denoising now region stats
    (getBytesFlow f region) (getKeysFlow f region)
    (bytesPerSecInit float_oor f region) (keysPerSecInit float_oor f region)
    storeID ret (mkSt f h)
  = Ok (ret ++ match candidate float_oor Denoising now region stats f storeID (length h) with
               | Some item => [item]
               | None => []
               end,
        mkSt f (heapAfter float_oor Denoising now region stats f storeID h)).
Proof.
  intros Hwf. unfold checkStore, candidate, heapAfter, storeRates.
  rewrite bind_run. unfold getCache. cbn [st_cache].
  destruct (denoise float_oor Denoising now _ _ _ _ _ _) as [[bps kps]|];
    [|unfold mret, M_ret; by rewrite app_nil_r].
  rewrite bind_run.
  destruct (isRegionExpired f region storeID) eqn:Hexp.
  { rewrite updateHotPeerStat_expired by done. reflexivity. }
  destruct (getOldHotPeerStat f (GetID region) storeID) as [old|] eqn:Hold.
  - destruct (valid_window_lookup _ _ (Hwf _ _ _ Hold)) as (l & w & Hl & Hw).
    rewrite (updateHotPeerStat_old _ _ l w) by done.
    rewrite Hl, Hw. reflexivity.
  - destruct (Z.leb_spec (calcHotThreshold float_oor f stats storeID) bps).
    + rewrite updateHotPeerStat_first by done. reflexivity.
    + rewrite updateHotPeerStat_drop by done.
      unfold mret, M_ret. by rewrite app_nil_r.
Qed.

Lemma heapAfter_length Denoising now region stats f storeID h :
  (length h ≤ length (heapAfter float_oor Denoising now region stats f storeID h))%nat.
Proof.
  unfold heapAfter.
  destruct (storeRates _ _ _ _ _ _) as [[bps kps]|]; [|done].
  destruct (isRegionExpired f region storeID); [done|].
  destruct (getOldHotPeerStat f (GetID region) storeID) as [old|].
  - destruct (RollingBytesRate old) as [l|]; [|done].
    destruct (h !! l); [|done]. by rewrite length_insert.
  - destruct (_ <=? _); [|done]. rewrite length_app. lia.
Qed.

Lemma heapsAfter_length Denoising now region stats f l h :
  (length h ≤ length (heapsAfter float_oor Denoising now region stats f l h))%nat.
Proof.
  revert h. induction l as [|s l IH]; intros h; [done|].
  simpl. etrans; [apply heapAfter_length|apply IH].
Qed.

Lemma wf_cache_mono f h h' :
  (length h ≤ length h')%nat → wf_cache f h → wf_cache f h'.
Proof.
  intros Hle Hwf s r o Ho. destruct (Hwf s r o Ho) as (l & -> & Hl).
  exists l. split; [done|lia].
Qed.

Lemma forRange_checkStore_run Denoising now region stats f l h ret :
  wf_cache f h →
  forRange (checkStore float_oor Denoising now region stats
              (getBytesFlow f region) (getKeysFlow f region)
              (bytesPerSecInit float_oor f region) (keysPerSecInit float_oor f region))
           l ret (mkSt f h)
  = Ok (ret ++ candidates float_oor Denoising now region stats f l h,
        mkSt f (heapsAfter float_oor Denoising now region stats f l h)).
Proof.
  revert h ret. induction l as [|s l IH]; intros h ret Hwf.
  - simpl. unfold mret, M_ret. by rewrite app_nil_r.
  - cbn [forRange candidates heapsAfter]. rewrite bind_run, checkStore_run by done.
    rewrite IH.
    + by rewrite <- app_assoc.
    + eapply wf_cache_mono; [apply heapAfter_length|done].
Qed.

(** [CheckRegionFlow] never panics on a well-formed state, returns the
    candidates of the visited stores and leaves the cache component of
    the state as it was. *)
Lemma CheckRegionFlow_run Denoising now region stats f h :
  wf_cache f h →
  CheckRegionFlow float_oor Denoising now region stats (mkSt f h)
  = Ok (candidates float_oor Denoising now region stats f (visitedStores f region) h,
        mkSt f (heapsAfter float_oor Denoising now region stats f (visitedStores f region) h)).
Proof.
  intros Hwf. unfold CheckRegionFlow. rewrite bind_run. unfold getCache.
  cbn [st_cache]. by rewrite forRange_checkStore_run.
Qed.

Lemma wrap_int_id z : is_int z → wrap_int z = z.
Proof.
  unfold is_int, wrap_int, int_min, int_max. intros Hz.
  rewrite Z.mod_small; lia.
Qed.

(** C1. On a new stat that is not expired (as [CheckRegionFlow] builds
    it: degree 0, not new): without an old stat and below the threshold
    nothing is emitted; without an old stat and at or above the threshold
    the emitted stat has degree 0, anti-count [hotRegionAntiCount] = 1,
    is new, is not deleted and owns a freshly allocated window holding the
    sample; with an old stat and at or above the threshold the emitted
    stat has the old degree plus one, anti-count 1, is not new and not
    deleted. *)
Theorem updateHotPeerStat_not_expired
    (newItem : HotPeerStat) (bytesRate hotThreshold : Z) (f : hotPeerCache) (h : Heap)
    (Hlive : needDelete newItem = false)
    (Hdeg : HotDegree newItem = 0)
    (Hnew : isNew newItem = false) :
  (bytesRate < hotThreshold →
     updateHotPeerStat newItem None bytesRate hotThreshold (mkSt f h) = Ok (None, mkSt f h))
  ∧ (hotThreshold ≤ bytesRate →
     ∃ item,
       updateHotPeerStat newItem None bytesRate hotThreshold (mkSt f h)
       = Ok (Some item,
             mkSt f (h ++ [rs_Add (NewRollingStats rollingWindowsSize) (f64_of_Z bytesRate)]))
       ∧ HotDegree item = 0
       ∧ AntiCount item = hotRegionAntiCount ∧ hotRegionAntiCount = 1
       ∧ isNew item = true
       ∧ needDelete item = false
       ∧ RollingBytesRate item = Some (length h))
  ∧ (∀ old l w,
       RollingBytesRate old = Some l → h !! l = Some w →
       is_int (HotDegree old) → HotDegree old < int_max →
       hotThreshold ≤ bytesRate →
       ∃ item,
         updateHotPeerStat newItem (Some old) bytesRate hotThreshold (mkSt f h)
         = Ok (Some item, mkSt f (<[l := rs_Add w (f64_of_Z bytesRate)]> h))
         ∧ HotDegree item = HotDegree old + 1
         ∧ AntiCount item = hotRegionAntiCount
         ∧ isNew item = false
         ∧ needDelete item = false
         ∧ RollingBytesRate item = Some l).
Proof.
  split; [|split].
  - intros Hlt. by apply updateHotPeerStat_drop.
  - intros Hle. eexists. split; [by apply updateHotPeerStat_first|].
    unfold firstHot. cbn. by rewrite Hdeg, Hlive.
  - intros old l w Hl Hw Hrange Hmax Hle. eexists.
    split; [by apply updateHotPeerStat_old|].
    destruct (Z.leb_spec hotThreshold bytesRate); [|lia].
    unfold hotSuccessor, int_add. cbn. rewrite Hnew, Hlive, Hl.
    rewrite wrap_int_id; [done|]. unfold is_int, int_min, int_max in *. lia.
Qed.

(** ** What the candidates are *)

Section Candidates.

Variables (Denoising : bool) (now : Time) (region : RegionInfo) (stats : StoresStats)
          (f : hotPeerCache).

Let cand := candidate float_oor Denoising now region stats f.
Let after := heapAfter float_oor Denoising now region stats f.
Let cands := candidates float_oor Denoising now region stats f.
Let afters := heapsAfter float_oor Denoising now region stats f.

Lemma candidate_fields storeID next item :
  cand storeID next = Some item →
  StoreID item = storeID ∧ RegionID item = GetID region
  ∧ LastUpdateTime item = now ∧ Kind item = kind f.
Proof.
  unfold cand, candidate.
  destruct (storeRates _ _ _ _ _ _) as [[bps kps]|]; [|done].
  destruct (isRegionExpired f region storeID).
  { by intros [= <-]. }
  destruct (getOldHotPeerStat f (GetID region) storeID) as [old|].
  - destruct (_ <=? _); intros [= <-]; [done|].
    unfold coldSuccessor. by destruct (_ <? _).
  - destruct (_ <=? _); [|done]. by intros [= <-].
Qed.

Lemma candidate_window storeID h item :
  wf_cache f h →
  cand storeID (length h) = Some item →
  needDelete item = false →
  valid_window (after storeID h) (RollingBytesRate item).
Proof.
  intros Hwf. unfold cand, after, candidate, heapAfter.
  destruct (storeRates _ _ _ _ _ _) as [[bps kps]|]; [|done].
  destruct (isRegionExpired f region storeID) eqn:Hexp.
  { intros [= <-]. by cbn. }
  destruct (getOldHotPeerStat f (GetID region) storeID) as [old|] eqn:Hold.
  - destruct (valid_window_lookup _ _ (Hwf _ _ _ Hold)) as (l & w & Hl & Hw).
    rewrite Hl, Hw. intros Hit _.
    assert (RollingBytesRate item = Some l) as ->.
    { destruct (_ <=? _); injection Hit as <-; [by cbn|].
      unfold coldSuccessor. by destruct (_ <? _); cbn. }
    exists l. split; [done|]. rewrite length_insert. by eapply lookup_lt_Some.
  - destruct (_ <=? _); [|done]. intros [= <-] _. cbn.
    exists (length h). split; [done|]. rewrite length_app. simpl. lia.
Qed.

Lemma candidates_app l1 l2 h :
  cands (l1 ++ l2) h = cands l1 h ++ cands l2 (afters l1 h).
Proof.
  revert h. induction l1 as [|s l1 IH]; intros h; [done|].
  unfold cands, afters in *. cbn [app candidates heapsAfter].
  by rewrite IH, app_assoc.
Qed.

Lemma heapsAfter_app l1 l2 h : afters (l1 ++ l2) h = afters l2 (afters l1 h).
Proof.
  revert h. induction l1 as [|s l1 IH]; intros h; [done|].
  unfold afters in *. cbn [app heapsAfter]. by rewrite IH.
Qed.

(** Every candidate stems from the round of a visited store, run on a
    heap that extends the initial one. *)
Lemma elem_of_candidates l h item :
  wf_cache f h →
  item ∈ cands l h →
  ∃ storeID h1,
    storeID ∈ l ∧ wf_cache f h1 ∧ (length h ≤ length h1)%nat
    ∧ (length (after storeID h1) ≤ length (afters l h))%nat
    ∧ cand storeID (length h1) = Some item.
Proof.
  revert h. induction l as [|s l IH]; intros h Hwf Hin.
  { by apply elem_of_nil in Hin. }
  unfold cands in Hin. cbn [candidates] in Hin.
  apply elem_of_app in Hin as [Hin|Hin].
  - destruct (candidate float_oor Denoising now region stats f s (length h))
      as [it|] eqn:Hc; [|by apply elem_of_nil in Hin].
    apply list_elem_of_singleton in Hin as ->.
    exists s, h. repeat split; [left|done|done| |done].
    unfold afters. cbn [heapsAfter]. apply heapsAfter_length.
  - pose proof (heapAfter_length Denoising now region stats f s h) as Hlen.
    destruct (IH (after s h)) as (s' & h1 & Hs' & Hwf1 & Hle & Hle' & Hc); [|done|].
    { eapply wf_cache_mono; [exact Hlen|done]. }
    exists s', h1. repeat split; [by right|done| |done|done].
    unfold after in Hle. lia.
Qed.

Lemma candidates_StoreID l h item :
  wf_cache f h → item ∈ cands l h → StoreID item ∈ l.
Proof.
  intros Hwf Hin.
  destruct (elem_of_candidates _ _ _ Hwf Hin) as (s & h1 & Hs & _ & _ & _ & Hc).
  apply candidate_fields in Hc as (-> & _). done.
Qed.

Lemma candidates_window l h item :
  wf_cache f h → item ∈ cands l h → needDelete item = false →
  valid_window (afters l h) (RollingBytesRate item).
Proof.
  intros Hwf Hin Hd.
  destruct (elem_of_candidates _ _ _ Hwf Hin) as (s & h1 & Hs & Hwf1 & _ & Hle & Hc).
  destruct (candidate_window _ _ _ Hwf1 Hc Hd) as (l0 & -> & Hl0).
  exists l0. split; [done|lia].
Qed.

(** The round of a visited store contributes its candidate, and nothing
    else carries its store-id. *)
Lemma candidates_of_store l h storeID :
  wf_cache f h → NoDup l → storeID ∈ l →
  ∃ l1 l2 h1,
    l = l1 ++ storeID :: l2
    ∧ wf_cache f h1 ∧ (length h ≤ length h1)%nat
    ∧ cands l h
      = cands l1 h
        ++ match cand storeID (length h1) with Some item => [item] | None => [] end
        ++ cands l2 (after storeID h1)
    ∧ (∀ item, item ∈ cands l1 h → StoreID item ≠ storeID)
    ∧ (∀ item, item ∈ cands l2 (after storeID h1) → StoreID item ≠ storeID).
Proof.
  intros Hwf Hnd Hin.
  apply list_elem_of_split in Hin as (l1 & l2 & ->).
  apply NoDup_app in Hnd as (Hnd1 & Hdisj & Hnd2).
  apply NoDup_cons in Hnd2 as [Hnotin2 _].
  assert (wf_cache f (afters l1 h)) as Hwf1.
  { eapply wf_cache_mono; [apply heapsAfter_length|done]. }
  exists l1, l2, (afters l1 h). repeat split; [done| | | |].
  - apply heapsAfter_length.
  - by rewrite candidates_app.
  - intros item Hitem Heq. apply candidates_StoreID in Hitem; [|done].
    rewrite Heq in Hitem. apply (Hdisj storeID Hitem). left.
  - intros item Hitem Heq. apply candidates_StoreID in Hitem.
    + rewrite Heq in Hitem. done.
    + eapply wf_cache_mono; [apply heapAfter_length|done].
Qed.

End Candidates.

(** ** Heartbeats: the candidates applied by [Update] *)

Lemma forRange_UpdateM items f h :
  forRange (fun item (_ : unit) => UpdateM item) items tt (mkSt f h)
  = Ok (tt, mkSt (fold_left Update items f) h).
Proof.
  revert f. induction items as [|item items IH]; intros f; [done|].
  cbn [forRange fold_left]. rewrite bind_run. unfold UpdateM at 1.
  rewrite bind_run. unfold getCache, putCache. cbn [st_cache st_heap].
  apply IH.
Qed.

Lemma heartbeat_run Denoising now region stats f h :
  wf_cache f h →
  let items := candidates float_oor Denoising now region stats f (visitedStores f region) h in
  heartbeat float_oor Denoising now region stats (mkSt f h)
  = Ok (items,
        mkSt (fold_left Update items f)
             (heapsAfter float_oor Denoising now region stats f (visitedStores f region) h)).
Proof.
  intros Hwf items. unfold heartbeat.
  rewrite bind_run, CheckRegionFlow_run by done.
  rewrite bind_run, forRange_UpdateM. reflexivity.
Qed.

Lemma kind_fold_Update items f : kind (fold_left Update items f) = kind f.
Proof.
  revert f. induction items as [|item items IH]; intros f; [done|].
  simpl. by rewrite IH, kind_Update.
Qed.

Lemma fold_Update_other_store items f regionID storeID :
  (∀ item, item ∈ items → StoreID item ≠ storeID) →
  getOldHotPeerStat (fold_left Update items f) regionID storeID
  = getOldHotPeerStat f regionID storeID.
Proof.
  revert f. induction items as [|item items IH]; intros f Hne; [done|].
  simpl. rewrite IH.
  - apply getOld_Update_other_store. intros Heq. eapply Hne; [left|done].
  - intros it Hit. apply Hne. by right.
Qed.

Lemma fold_Update_inv items f regionID storeID o :
  getOldHotPeerStat (fold_left Update items f) regionID storeID = Some o →
  (o ∈ items ∧ needDelete o = false) ∨ getOldHotPeerStat f regionID storeID = Some o.
Proof.
  revert f. induction items as [|item items IH]; intros f Ho; [by right|].
  simpl in Ho. apply IH in Ho as [[Hin Hd]|Ho].
  - left. split; [by right|done].
  - apply getOld_Update_inv in Ho as [(Hd & _ & _ & ->)|[Ho _]].
    + left. split; [left|done].
    + by right.
Qed.

Lemma oldStores_Update_keep f item regionID storeID :
  storeID ≠ StoreID item →
  storeID ∈ oldStores f regionID → storeID ∈ oldStores (Update f item) regionID.
Proof.
  intros Hne Hin. destruct (decide (regionID = RegionID item)) as [->|Hr].
  - destruct (IsNeedDelete item) eqn:Hd.
    + rewrite oldStores_Update_delete by done. set_solver.
    + rewrite oldStores_Update_put by done. set_solver.
  - by rewrite oldStores_Update_other.
Qed.

Lemma fold_Update_oldStores_keep items f regionID storeID :
  (∀ item, item ∈ items → StoreID item ≠ storeID) →
  storeID ∈ oldStores f regionID →
  storeID ∈ oldStores (fold_left Update items f) regionID.
Proof.
  revert f. induction items as [|item items IH]; intros f Hne Hin; [done|].
  simpl. apply IH.
  - intros it Hit. apply Hne. by right.
  - apply oldStores_Update_keep; [|done]. intros Heq. eapply Hne; [left|done].
Qed.

(** A heartbeat keeps the state well formed. *)
Lemma heartbeat_wf Denoising now region stats f h :
  wf_cache f h →
  let l := visitedStores f region in
  wf_cache (fold_left Update (candidates float_oor Denoising now region stats f l h) f)
           (heapsAfter float_oor Denoising now region stats f l h).
Proof.
  intros Hwf l s r o Ho. apply fold_Update_inv in Ho as [[Hin Hd]|Ho].
  - by eapply candidates_window.
  - destruct (Hwf s r o Ho) as (l0 & -> & Hl0). exists l0. split; [done|].
    pose proof (heapsAfter_length Denoising now region stats f l h). lia.
Qed.

(** The effect of a heartbeat on one visited store. *)
Lemma heartbeat_store Denoising now region stats f h storeID :
  wf_cache f h → storeID ∈ visitedStores f region →
  let items := candidates float_oor Denoising now region stats f (visitedStores f region) h in
  let f' := fold_left Update items f in
  ∃ h1,
    wf_cache f h1 ∧ (length h ≤ length h1)%nat
    ∧ match candidate float_oor Denoising now region stats f storeID (length h1) with
      | Some item =>
          item ∈ items
          ∧ (∀ item', item' ∈ items → StoreID item' = storeID → item' = item)
          ∧ getOldHotPeerStat f' (GetID region) storeID
            = (if needDelete item then None else Some item)
          ∧ (needDelete item = false → storeID ∈ oldStores f' (GetID region))
      | None =>
          (∀ item', item' ∈ items → StoreID item' ≠ storeID)
          ∧ getOldHotPeerStat f' (GetID region) storeID
            = getOldHotPeerStat f (GetID region) storeID
      end.
Proof.
  intros Hwf Hin items f'.
  destruct (candidates_of_store Denoising now region stats f
              (visitedStores f region) h storeID Hwf
              (NoDup_elements (getAllStoreIDs f region)) Hin)
    as (l1 & l2 & h1 & Hl & Hwf1 & Hle & Hc & Hn1 & Hn2).
  exists h1. split; [done|]. split; [done|].
  subst items f'. rewrite Hc.
  destruct (candidate float_oor Denoising now region stats f storeID (length h1))
    as [item|] eqn:Hcand.
  - destruct (candidate_fields _ _ _ _ _ _ _ _ Hcand) as (Hs & Hr & _).
    rewrite !fold_left_app. cbn [fold_left].
    split; [|split; [|split]].
    + apply elem_of_app. right. apply elem_of_app. left. left.
    + intros item' Hin' Hs'.
      apply elem_of_app in Hin' as [Hin'|Hin']; [by apply Hn1 in Hin'|].
      apply elem_of_app in Hin' as [Hin'|Hin']; [|by apply Hn2 in Hin'].
      by apply list_elem_of_singleton in Hin'.
    + rewrite fold_Update_other_store by done.
      rewrite <- Hs, <- Hr. destruct (needDelete item) eqn:Hd.
      * by apply getOld_Update_delete.
      * by apply getOld_Update_put.
    + intros Hd. apply fold_Update_oldStores_keep; [done|].
      rewrite <- Hs, <- Hr. rewrite oldStores_Update_put by done. set_solver.
  - rewrite app_nil_l. split.
    + intros item' Hin'.
      apply elem_of_app in Hin' as [Hin'|Hin']; [by apply Hn1|by apply Hn2].
    + apply fold_Update_other_store. intros item' Hin'.
      apply elem_of_app in Hin' as [Hin'|Hin']; [by apply Hn1|by apply Hn2].
Qed.

(** ** Expired peers *)

Lemma storeRates_expired Denoising now region f storeID :
  isRegionExpired f region storeID = true →
  ∃ bps kps, storeRates float_oor Denoising now region f storeID = Some (bps, kps).
Proof.
  intros Hexp. unfold storeRates, denoise. rewrite Hexp.
  destruct (option_map _ _); [|eauto].
  destruct Denoising; [|eauto]. rewrite andb_false_r. eauto.
Qed.

Lemma candidate_expired Denoising now region stats f storeID next bps kps :
  isRegionExpired f region storeID = true →
  storeRates float_oor Denoising now region f storeID = Some (bps, kps) →
  candidate float_oor Denoising now region stats f storeID next
  = Some (newHotPeerStat f region storeID bps kps now true).
Proof. intros Hexp Hr. unfold candidate. by rewrite Hr, Hexp. Qed.

(** The round of an expired store appends the new stat as it was built
    and touches nothing, whatever the heap. *)
Lemma checkStore_expired Denoising now region stats f h storeID ret bps kps :
  isRegionExpired f region storeID = true →
  storeRates float_oor Denoising now region f storeID = Some (bps, kps) →
  checkStore float_oor Denoising now region stats
    (getBytesFlow f region) (getKeysFlow f region)
    (bytesPerSecInit float_oor f region) (keysPerSecInit float_oor f region)
    storeID ret (mkSt f h)
  = Ok (ret ++ [newHotPeerStat f region storeID bps kps now true], mkSt f h).
Proof.
  intros Hexp Hr. unfold checkStore. rewrite bind_run. unfold getCache.
  cbn [st_cache]. unfold storeRates in Hr. rewrite Hr, Hexp.
  rewrite bind_run, updateHotPeerStat_expired by done. reflexivity.
Qed.

Lemma check_store_candidate Denoising now region stats f h storeID :
  wf_cache f h → storeID ∈ visitedStores f region →
  ∃ h1,
    wf_cache f h1 ∧ (length h ≤ length h1)%nat
    ∧ let items := candidates float_oor Denoising now region stats f
                     (visitedStores f region) h in
      match candidate float_oor Denoising now region stats f storeID (length h1) with
      | Some item =>
          item ∈ items
          ∧ (∀ item', item' ∈ items → StoreID item' = storeID → item' = item)
      | None => ∀ item', item' ∈ items → StoreID item' ≠ storeID
      end.
Proof.
  intros Hwf Hin.
  destruct (heartbeat_store Denoising now region stats f h storeID Hwf Hin)
    as (h1 & Hwf1 & Hle & H).
  exists h1. split; [done|]. split; [done|]. cbv zeta.
  destruct (candidate _ _ _ _ _ _ _ _); [|apply H].
  destruct H as (? & ? & _). by split.
Qed.


(** C3 (amended). When the new stat is expired and an old stat is cached,
    [CheckRegionFlow] emits for that store the new stat exactly as the
    loop built it: [needDelete] is true and [isNew] false, but the degree
    and the anti-count are 0 and the window is nil, whatever the old stat
    holds; the round of that store leaves the heap, and with it the old
    window, untouched. *)
Theorem expired_tombstone_is_blank
    (Denoising : bool) (now : Time) (region : RegionInfo) (stats : StoresStats)
    (f : hotPeerCache) (h : Heap) (storeID : Z) (old : HotPeerStat)
    (Hwf : wf_cache f h)
    (Hvisit : storeID ∈ visitedStores f region)
    (Hexp : isRegionExpired f region storeID = true)
    (Hold : getOldHotPeerStat f (GetID region) storeID = Some old) :
  ∃ items h' item,
    CheckRegionFlow float_oor Denoising now region stats (mkSt f h) = Ok (items, mkSt f h')
    ∧ item ∈ items
    ∧ (∀ item', item' ∈ items → StoreID item' = storeID → item' = item)
    ∧ StoreID item = storeID
    ∧ needDelete item = true
    ∧ isNew item = false
    ∧ HotDegree item = 0
    ∧ AntiCount item = 0
    ∧ RollingBytesRate item = None
    ∧ (∀ ret h0,
         checkStore float_oor Denoising now region stats
           (getBytesFlow f region) (getKeysFlow f region)
           (bytesPerSecInit float_oor f region) (keysPerSecInit float_oor f region)
           storeID ret (mkSt f h0)
         = Ok (ret ++ [item], mkSt f h0)).
Proof.
  destruct (storeRates_expired Denoising now region f storeID Hexp) as (bps & kps & Hr).
  destruct (check_store_candidate Denoising now region stats f h storeID Hwf Hvisit)
    as (h1 & _ & _ & Hc).
  cbv zeta in Hc. rewrite (candidate_expired _ _ _ _ _ _ _ bps kps) in Hc by done.
  destruct Hc as [Hin Huniq].
  eexists _, _, (newHotPeerStat f region storeID bps kps now true).
  split; [by apply CheckRegionFlow_run|].
  repeat split; try done.
  intros ret h0. by apply checkStore_expired.
Qed.

(** ** A region without leader, read flow *)

Lemma forRange_expired Denoising now region stats f h l ret :
  (∀ s, s ∈ l → isRegionExpired f region s = true) →
  ∃ items,
    forRange (checkStore float_oor Denoising now region stats
                (getBytesFlow f region) (getKeysFlow f region)
                (bytesPerSecInit float_oor f region) (keysPerSecInit float_oor f region))
             l ret (mkSt f h)
    = Ok (ret ++ items, mkSt f h)
    ∧ List.map StoreID items = l
    ∧ (∀ item, item ∈ items → needDelete item = true).
Proof.
  revert ret. induction l as [|s l IH]; intros ret Hexp.
  - exists []. rewrite app_nil_r. split; [done|]. split; [done|].
    by intros ? ?%elem_of_nil.
  - assert (isRegionExpired f region s = true) as Hs by (apply Hexp; left).
    destruct (storeRates_expired Denoising now region f s Hs) as (bps & kps & Hr).
    destruct (IH (ret ++ [newHotPeerStat f region s bps kps now true]))
      as (items & Hrun & Hmap & Hdel).
    { intros s' Hs'. apply Hexp. by right. }
    exists (newHotPeerStat f region s bps kps now true :: items).
    cbn [forRange]. rewrite bind_run, (checkStore_expired _ _ _ _ _ _ _ _ bps kps) by done.
    rewrite Hrun, <- app_assoc. split; [done|]. split.
    + cbn [List.map]. by rewrite Hmap.
    + intros item [->|Hin]%elem_of_cons; [done|by apply Hdel].
Qed.

Lemma currentStores_no_leader region :
  GetLeader region = None → currentStores ReadFlow region ⊆ {[0]}.
Proof.
  intros Hl s Hs. apply elem_of_currentStores in Hs as (p & _ & _ & He).
  rewrite He by done. rewrite Hl. set_solver.
Qed.

(** C5 (amended). For a region without leader (and no store with id 0),
    the read-flow [CheckRegionFlow] leaves the whole state unchanged and
    returns one stat marked [needDelete] for each previously observed
    store of the region; the list is empty exactly when no such store is
    recorded. *)
Theorem no_leader_read_check
    (Denoising : bool) (now : Time) (region : RegionInfo) (stats : StoresStats)
    (f : hotPeerCache) (h : Heap)
    (Hkind : kind f = ReadFlow)
    (Hleader : GetLeader region = None)
    (Hzero : 0 ∉ getAllStoreIDs f region) :
  ∃ items,
    CheckRegionFlow float_oor Denoising now region stats (mkSt f h) = Ok (items, mkSt f h)
    ∧ List.map StoreID items = elements (oldStores f (GetID region))
    ∧ (∀ item, item ∈ items → needDelete item = true)
    ∧ (items = [] ↔ oldStores f (GetID region) = ∅).
Proof.
  assert (getAllStoreIDs f region = oldStores f (GetID region)) as Hall.
  { pose proof (currentStores_no_leader region Hleader) as Hsub.
    rewrite getAllStoreIDs_union, Hkind in Hzero |- *. set_solver. }
  destruct (forRange_expired Denoising now region stats f h (visitedStores f region) [])
    as (items & Hrun & Hmap & Hdel).
  { intros s Hs. unfold visitedStores in Hs. apply elem_of_elements in Hs.
    unfold isRegionExpired. rewrite Hkind, Hleader. cbn [GetStoreId].
    destruct (Z.eqb_spec 0 s) as [<-|]; [done|done]. }
  exists items. split; [|split; [|split]].
  - unfold CheckRegionFlow. rewrite bind_run. unfold getCache. cbn [st_cache].
    exact Hrun.
  - rewrite Hmap. unfold visitedStores. by rewrite Hall.
  - done.
  - unfold visitedStores in Hmap. rewrite Hall in Hmap. split.
    + intros ->. cbn in Hmap. symmetry in Hmap.
      by apply leibniz_equiv, elements_empty_inv.
    + intros He. rewrite He, elements_empty in Hmap. by destruct items.
Qed.

(** ** The sign of an interval after a clock regression *)

Lemma shr_1_nonneg mrs : 0 ≤ shr_m mrs → 0 ≤ shr_m (shr_1 mrs).
Proof.
  destruct mrs as [m r s]. cbn [shr_m]. intros Hm.
  destruct m as [|p|p]; [done| |lia]. by destruct p.
Qed.

Lemma iter_pos_shr_1_nonneg p mrs :
  0 ≤ shr_m mrs → 0 ≤ shr_m (SpecFloat.iter_pos shr_1 p mrs).
Proof.
  revert mrs. induction p as [p IH|p IH|]; intros mrs Hm; cbn [SpecFloat.iter_pos].
  - by apply IH, IH, shr_1_nonneg.
  - by apply IH, IH.
  - by apply shr_1_nonneg.
Qed.

Lemma shr_fexp_nonneg m e l :
  0 ≤ m → 0 ≤ shr_m (fst (shr_fexp f64_prec f64_emax m e l)).
Proof.
  intros Hm. unfold shr_fexp, shr.
  assert (shr_m (shr_record_of_loc m l) = m) as Hrec.
  { destruct l as [|[]]; reflexivity. }
  destruct (_ - e)%Z; cbn [fst]; rewrite ?Hrec; try done.
  apply iter_pos_shr_1_nonneg. by rewrite Hrec.
Qed.

Lemma round_nearest_even_nonneg m l : 0 ≤ m → 0 ≤ round_nearest_even m l.
Proof.
  intros Hm. unfold round_nearest_even.
  destruct l as [|[]]; try done; [destruct (Z.even m)|]; lia.
Qed.

Lemma binary_round_aux_signed sx mx ex lx :
  0 ≤ mx → f64_signed sx (binary_round_aux f64_prec f64_emax sx mx ex lx).
Proof.
  intros Hm. unfold binary_round_aux.
  pose proof (shr_fexp_nonneg mx ex lx Hm) as H1.
  destruct (shr_fexp f64_prec f64_emax mx ex lx) as [mrs' e']. cbn [fst] in H1.
  pose proof (shr_fexp_nonneg _ e' loc_Exact
                (round_nearest_even_nonneg _ (loc_of_shr_record mrs') H1)) as H2.
  destruct (shr_fexp f64_prec f64_emax _ e' loc_Exact) as [mrs'' e''].
  cbn [fst] in H2. destruct (shr_m mrs'') as [|p|p]; [done| |lia].
  by destruct (_ <=? _)%Z.
Qed.

Lemma binary_round_signed sx mx ex :
  f64_signed sx (binary_round f64_prec f64_emax sx mx ex).
Proof.
  unfold binary_round. destruct (shl_align _ _ _) as [mz ez].
  by apply binary_round_aux_signed.
Qed.

Lemma f64_signed_nonpos x : f64_signed true x → f64_nonpos x.
Proof. by destruct x. Qed.

Lemma f64_of_Z_nonpos z : z ≤ 0 → f64_nonpos (f64_of_Z z).
Proof.
  intros Hz. unfold f64_of_Z, binary_normalize. destruct z as [|p|p]; [done|lia|].
  apply f64_signed_nonpos, binary_round_signed.
Qed.

Lemma f64_div_nonpos x m e :
  f64_nonpos x → f64_nonpos (f64_div x (S754_finite false m e)).
Proof.
  unfold f64_div. destruct x as [s|s| |s mx ex]; cbn [SFdiv f64_nonpos]; try done.
  - intros ->. reflexivity.
  - intros ->. cbn [xorb].
    destruct (SFdiv_core_binary f64_prec f64_emax (Zpos mx) ex (Zpos m) e)
      as [[mz ez] lz] eqn:Hcore.
    apply f64_signed_nonpos, binary_round_aux_signed.
    unfold SFdiv_core_binary in Hcore.
    destruct (Z.div_eucl _ (Zpos m)) as [q r] eqn:Hdiv in Hcore.
    injection Hcore as <- _ _.
    match type of Hdiv with Z.div_eucl ?a ?b = _ =>
      assert (0 ≤ a) as Ha; [|pose proof (Z.div_pos a b Ha ltac:(lia)) as Hq;
                               unfold Z.div in Hq; by rewrite Hdiv in Hq]
    end.
    destruct (_ - _ - _)%Z; [lia| |lia].
    rewrite Z.shiftl_mul_pow2 by lia. lia.
Qed.

Lemma f64_add_nonpos x y : f64_nonpos x → f64_nonpos y → f64_nonpos (f64_add x y).
Proof.
  unfold f64_add.
  destruct x as [sx|sx| |sx mx ex], y as [sy|sy| |sy my ey];
    cbn [SFadd f64_nonpos]; try done.
  - intros _ _. by destruct sx, sy.
  - intros -> ->. reflexivity.
  - intros -> ->. cbn [cond_Zopp].
    apply f64_signed_nonpos. unfold binary_normalize.
    match goal with |- context [(- Zpos ?a + - Zpos ?b)%Z] =>
      change (- Zpos a + - Zpos b)%Z with (Zneg (a + b))
    end.
    apply binary_round_signed.
Qed.

Lemma f64_nonpos_lt_min x :
  f64_nonpos x → f64_ltb x (f64_of_Z hotRegionReportMinInterval) = true.
Proof. by destruct x as [s|[]| |[]]. Qed.

Lemma Seconds_nonpos d : d ≤ 0 → f64_nonpos (Seconds d).
Proof.
  intros Hd. unfold Seconds. apply f64_add_nonpos.
  - apply f64_of_Z_nonpos. apply Z.quot_le_upper_bound; unfold Second; lia.
  - assert (f64_of_Z Second = S754_finite false 8388608000000000 (-23)) as ->
      by reflexivity.
    apply f64_div_nonpos, f64_of_Z_nonpos.
    apply Z.rem_nonpos; unfold Second; lia.
Qed.

(** After a clock regression the interval of the denoising block is
    below the minimum. *)
Lemma regression_reportTooFast now last : now < last → reportTooFast now last = true.
Proof.
  intros Hlt. unfold reportTooFast. apply f64_nonpos_lt_min, Seconds_nonpos.
  unfold Since, Sub.
  assert (int_min < 0 < int_max) as Hb by done.
  destruct (Z.ltb_spec (now - last) int_min); [lia|].
  destruct (Z.ltb_spec int_max (now - last)); lia.
Qed.

(** ** Denoising *)

Lemma candidate_rates Denoising now region stats f storeID next item :
  candidate float_oor Denoising now region stats f storeID next = Some item →
  storeRates float_oor Denoising now region f storeID
  = Some (BytesRate item, KeysRate item).
Proof.
  unfold candidate.
  destruct (storeRates _ _ _ _ _ _) as [[bps kps]|]; [|done].
  destruct (isRegionExpired f region storeID).
  { by intros [= <-]. }
  destruct (getOldHotPeerStat f (GetID region) storeID) as [old|].
  - destruct (_ <=? _); intros [= <-]; [done|].
    unfold coldSuccessor. by destruct (_ <? _).
  - destruct (_ <=? _); [|done]. by intros [= <-].
Qed.

Lemma candidate_skipped Denoising now region stats f storeID next :
  storeRates float_oor Denoising now region f storeID = None →
  candidate float_oor Denoising now region stats f storeID next = None.
Proof. intros H. unfold candidate. by rewrite H. Qed.

Lemma candidate_with_old Denoising now region stats f storeID next old bps kps :
  getOldHotPeerStat f (GetID region) storeID = Some old →
  storeRates float_oor Denoising now region f storeID = Some (bps, kps) →
  ∃ item, candidate float_oor Denoising now region stats f storeID next = Some item.
Proof.
  intros Hold Hr. unfold candidate. rewrite Hr, Hold.
  destruct (isRegionExpired f region storeID); eauto.
Qed.

Lemma storeRates_too_fast now region f storeID old :
  getOldHotPeerStat f (GetID region) storeID = Some old →
  reportTooFast now (LastUpdateTime old) = true →
  isRegionExpired f region storeID = false →
  storeRates float_oor true now region f storeID = None.
Proof.
  intros Hold Hfast Hexp. unfold storeRates, denoise. rewrite Hold, Hexp.
  cbn [option_map]. unfold reportTooFast in Hfast. by rewrite Hfast.
Qed.

Lemma storeRates_recomputed now region f storeID old :
  getOldHotPeerStat f (GetID region) storeID = Some old →
  reportTooFast now (LastUpdateTime old) = false
  ∨ isRegionExpired f region storeID = true →
  storeRates float_oor true now region f storeID
  = Some (uint64_of_float64 float_oor
            (f64_div (f64_of_Z (getBytesFlow f region))
                     (Seconds (Since now (LastUpdateTime old)))),
          uint64_of_float64 float_oor
            (f64_div (f64_of_Z (getKeysFlow f region))
                     (Seconds (Since now (LastUpdateTime old))))).
Proof.
  intros Hold Hc. unfold storeRates, denoise. rewrite Hold. cbn [option_map].
  unfold reportTooFast in Hc.
  destruct Hc as [-> | ->]; [done|]. by rewrite andb_false_r.
Qed.

(** The candidates of a store with a cached old stat, at the level of
    [CheckRegionFlow]. *)
Lemma check_skips_store now region stats f h storeID old :
  wf_cache f h →
  getOldHotPeerStat f (GetID region) storeID = Some old →
  reportTooFast now (LastUpdateTime old) = true →
  isRegionExpired f region storeID = false →
  ∃ items h',
    CheckRegionFlow float_oor true now region stats (mkSt f h) = Ok (items, mkSt f h')
    ∧ ∀ item, item ∈ items → StoreID item ≠ storeID.
Proof.
  intros Hwf Hold Hfast Hexp. eexists _, _.
  split; [by apply CheckRegionFlow_run|].
  intros item Hin Heq.
  destruct (elem_of_candidates _ _ _ _ _ _ _ _ Hwf Hin) as (s & h1 & _ & _ & _ & _ & Hc).
  pose proof (candidate_fields _ _ _ _ _ _ _ _ Hc) as (Hs & _).
  rewrite Heq in Hs. subst s.
  rewrite candidate_skipped in Hc; [done|]. by eapply storeRates_too_fast.
Qed.

Lemma check_recomputes_rates now region stats f h storeID old :
  wf_cache f h →
  storeID ∈ visitedStores f region →
  getOldHotPeerStat f (GetID region) storeID = Some old →
  reportTooFast now (LastUpdateTime old) = false
  ∨ isRegionExpired f region storeID = true →
  ∃ items h' item,
    CheckRegionFlow float_oor true now region stats (mkSt f h) = Ok (items, mkSt f h')
    ∧ item ∈ items
    ∧ (∀ item', item' ∈ items → StoreID item' = storeID → item' = item)
    ∧ StoreID item = storeID
    ∧ needDelete item = orb (isRegionExpired f region storeID) (needDelete item)
    ∧ BytesRate item
      = uint64_of_float64 float_oor
          (f64_div (f64_of_Z (getBytesFlow f region))
                   (Seconds (Since now (LastUpdateTime old))))
    ∧ KeysRate item
      = uint64_of_float64 float_oor
          (f64_div (f64_of_Z (getKeysFlow f region))
                   (Seconds (Since now (LastUpdateTime old)))).
Proof.
  intros Hwf Hvisit Hold Hc.
  pose proof (storeRates_recomputed now region f storeID old Hold Hc) as Hr.
  destruct (check_store_candidate true now region stats f h storeID Hwf Hvisit)
    as (h1 & _ & _ & Hcand).
  cbv zeta in Hcand.
  destruct (candidate_with_old true now region stats f storeID (length h1) old _ _ Hold Hr)
    as (item & Hitem).
  rewrite Hitem in Hcand. destruct Hcand as [Hin Huniq].
  pose proof (candidate_rates _ _ _ _ _ _ _ _ Hitem) as Hrates.
  rewrite Hr in Hrates. injection Hrates as Hb Hk.
  pose proof (candidate_fields _ _ _ _ _ _ _ _ Hitem) as (Hs & _).
  eexists _, _, item. split; [by apply CheckRegionFlow_run|].
  repeat split; try done.
  unfold candidate in Hitem. rewrite Hr in Hitem.
  destruct (isRegionExpired f region storeID); [|done].
  by injection Hitem as <-.
Qed.

(** C4 (amended). With denoising on, an old stat cached and the clock
    behind its [LastUpdateTime], there is no fall-back to the nominal
    interval: a store whose peer is not expired is skipped, nothing is
    emitted for it; for an expired peer the emitted stat is marked
    [needDelete] and its rates are the flows divided by the real,
    non-positive interval, converted to [uint64]. *)
Theorem clock_regression_skips_or_divides
    (now : Time) (region : RegionInfo) (stats : StoresStats)
    (f : hotPeerCache) (h : Heap) (storeID : Z) (old : HotPeerStat)
    (Hwf : wf_cache f h)
    (Hvisit : storeID ∈ visitedStores f region)
    (Hold : getOldHotPeerStat f (GetID region) storeID = Some old)
    (Hregress : now < LastUpdateTime old) :
  ∃ items h',
    CheckRegionFlow float_oor true now region stats (mkSt f h) = Ok (items, mkSt f h')
    ∧ (isRegionExpired f region storeID = false →
         ∀ item, item ∈ items → StoreID item ≠ storeID)
    ∧ (isRegionExpired f region storeID = true →
         ∃ item,
           item ∈ items ∧ StoreID item = storeID ∧ needDelete item = true
           ∧ BytesRate item
             = uint64_of_float64 float_oor
                 (f64_div (f64_of_Z (getBytesFlow f region))
                          (Seconds (Since now (LastUpdateTime old))))
           ∧ KeysRate item
             = uint64_of_float64 float_oor
                 (f64_div (f64_of_Z (getKeysFlow f region))
                          (Seconds (Since now (LastUpdateTime old))))).
Proof.
  eexists _, _. split; [by apply CheckRegionFlow_run|]. split.
  - intros Hexp.
    destruct (check_skips_store now region stats f h storeID old Hwf Hold
                (regression_reportTooFast _ _ Hregress) Hexp) as (items & h' & Hrun & Hno).
    rewrite CheckRegionFlow_run in Hrun by done. by injection Hrun as <- _.
  - intros Hexp.
    destruct (check_recomputes_rates now region stats f h storeID old Hwf Hvisit Hold
                (or_intror Hexp))
      as (items & h' & item & Hrun & Hin & _ & Hs & Hd & Hb & Hk).
    rewrite CheckRegionFlow_run in Hrun by done. injection Hrun as <- _.
    exists item. rewrite Hexp in Hd. by repeat split.
Qed.



(** ** Cooling *)

Lemma coldSuccessor_fields newItem old :
  needDelete newItem = false →
  is_int (HotDegree old - 1) → is_int (AntiCount old - 1) →
  let item := coldSuccessor newItem old in
  HotDegree item = HotDegree old - 1
  ∧ AntiCount item = AntiCount old - 1
  ∧ needDelete item = (AntiCount old - 1 <? 0)
  ∧ isNew item = isNew newItem
  ∧ StoreID item = StoreID newItem
  ∧ RollingBytesRate item = RollingBytesRate old.
Proof.
  intros Hd Hh Ha. unfold coldSuccessor, int_sub. cbn.
  rewrite !wrap_int_id by done.
  destruct (_ <? _); cbn; by rewrite ?wrap_int_id.
Qed.

(** One heartbeat below the threshold on a store with a cached stat. *)
Lemma cold_heartbeat Denoising now region stats f h storeID old bps kps :
  wf_cache f h →
  storeID ∈ visitedStores f region →
  getOldHotPeerStat f (GetID region) storeID = Some old →
  isRegionExpired f region storeID = false →
  storeRates float_oor Denoising now region f storeID = Some (bps, kps) →
  bps < calcHotThreshold float_oor f stats storeID →
  is_int (HotDegree old - 1) → is_int (AntiCount old - 1) →
  ∃ items f1 h1 item,
    heartbeat float_oor Denoising now region stats (mkSt f h) = Ok (items, mkSt f1 h1)
    ∧ wf_cache f1 h1
    ∧ item ∈ items
    ∧ (∀ item', item' ∈ items → StoreID item' = storeID → item' = item)
    ∧ StoreID item = storeID
    ∧ HotDegree item = HotDegree old - 1
    ∧ AntiCount item = AntiCount old - 1
    ∧ needDelete item = (AntiCount old - 1 <? 0)
    ∧ isNew item = false
    ∧ RollingBytesRate item = RollingBytesRate old
    ∧ getOldHotPeerStat f1 (GetID region) storeID
      = (if needDelete item then None else Some item)
    ∧ (needDelete item = false → storeID ∈ oldStores f1 (GetID region)).
Proof.
  intros Hwf Hvisit Hold Hexp Hr Hcold Hh Ha.
  destruct (heartbeat_store Denoising now region stats f h storeID Hwf Hvisit)
    as (h0 & _ & _ & Hst).
  cbv zeta in Hst.
  assert (candidate float_oor Denoising now region stats f storeID (length h0)
          = Some (coldSuccessor (newHotPeerStat f region storeID bps kps now false) old))
    as Hcand.
  { unfold candidate. rewrite Hr, Hexp, Hold.
    destruct (Z.leb_spec (calcHotThreshold float_oor f stats storeID) bps); [lia|done]. }
  rewrite Hcand in Hst. destruct Hst as (Hin & Huniq & Hget & Hstores).
  destruct (coldSuccessor_fields (newHotPeerStat f region storeID bps kps now false) old
              eq_refl Hh Ha) as (F1 & F2 & F3 & F4 & F5 & F6).
  eexists _, _, _, (coldSuccessor (newHotPeerStat f region storeID bps kps now false) old).
  split; [by apply heartbeat_run|].
  split; [by apply heartbeat_wf|].
  split; [exact Hin|]. split; [exact Huniq|].
  split; [exact F5|]. split; [exact F1|]. split; [exact F2|]. split; [exact F3|].
  split; [exact F4|]. split; [exact F6|]. split; [exact Hget|exact Hstores].
Qed.

(** C2 (amended). A cold heartbeat (Check, then Update) on a cached stat
    whose anti-count is positive emits, and caches, a stat with the degree
    and the anti-count both lowered by one and [needDelete] false. When
    the anti-count was [hotRegionAntiCount] = 1, as after a hot heartbeat,
    the next cold heartbeat, the second and not the
    (H + [hotRegionAntiCount] + 1)-th, emits the stat with [needDelete]
    true, anti-count -1 and degree H - 2, and [Update] removes it from the
    cache, whatever the degree H was. *)
Theorem cooling_deletes_at_second_cold_heartbeat
    (Denoising : bool) (now1 : Time) (region1 : RegionInfo) (stats1 : StoresStats)
    (f : hotPeerCache) (h : Heap) (storeID : Z) (old : HotPeerStat) (bps1 kps1 : Z)
    (Hwf : wf_cache f h)
    (Hvisit : storeID ∈ visitedStores f region1)
    (Hold : getOldHotPeerStat f (GetID region1) storeID = Some old)
    (Hanti : 0 < AntiCount old ≤ int_max)
    (Hdeg : int_min + 2 ≤ HotDegree old ≤ int_max)
    (Hexp1 : isRegionExpired f region1 storeID = false)
    (Hrates1 : storeRates float_oor Denoising now1 region1 f storeID = Some (bps1, kps1))
    (Hcold1 : bps1 < calcHotThreshold float_oor f stats1 storeID) :
  ∃ items1 f1 h1 item1,
    heartbeat float_oor Denoising now1 region1 stats1 (mkSt f h) = Ok (items1, mkSt f1 h1)
    ∧ item1 ∈ items1
    ∧ (∀ item', item' ∈ items1 → StoreID item' = storeID → item' = item1)
    ∧ StoreID item1 = storeID
    ∧ HotDegree item1 = HotDegree old - 1
    ∧ AntiCount item1 = AntiCount old - 1
    ∧ 0 ≤ AntiCount item1
    ∧ needDelete item1 = false
    ∧ getOldHotPeerStat f1 (GetID region1) storeID = Some item1
    ∧ (AntiCount old = hotRegionAntiCount →
       ∀ Denoising2 now2 region2 stats2 bps2 kps2,
         GetID region2 = GetID region1 →
         isRegionExpired f1 region2 storeID = false →
         storeRates float_oor Denoising2 now2 region2 f1 storeID = Some (bps2, kps2) →
         bps2 < calcHotThreshold float_oor f1 stats2 storeID →
         ∃ items2 f2 h2 item2,
           heartbeat float_oor Denoising2 now2 region2 stats2 (mkSt f1 h1)
           = Ok (items2, mkSt f2 h2)
           ∧ item2 ∈ items2
           ∧ (∀ item', item' ∈ items2 → StoreID item' = storeID → item' = item2)
           ∧ StoreID item2 = storeID
           ∧ needDelete item2 = true
           ∧ AntiCount item2 = -1
           ∧ HotDegree item2 = HotDegree old - 2
           ∧ getOldHotPeerStat f2 (GetID region1) storeID = None).
Proof.
  assert (is_int (HotDegree old - 1)) as Hh1.
  { unfold is_int, int_min, int_max in *. lia. }
  assert (is_int (AntiCount old - 1)) as Ha1.
  { unfold is_int, int_min, int_max in *. lia. }
  destruct (cold_heartbeat Denoising now1 region1 stats1 f h storeID old bps1 kps1
              Hwf Hvisit Hold Hexp1 Hrates1 Hcold1 Hh1 Ha1)
    as (items1 & f1 & h1 & item1 & Hrun & Hwf1 & Hin & Huniq & Hs & Hd1 & Hc1 & Hdel
        & _ & _ & Hget & Hvis1).
  assert (needDelete item1 = false) as Hlive.
  { rewrite Hdel. apply Z.ltb_ge. lia. }
  rewrite Hlive in Hget.
  exists items1, f1, h1, item1. repeat split; try done; [lia|].
  intros Hone Denoising2 now2 region2 stats2 bps2 kps2 Hid Hexp2 Hrates2 Hcold2.
  unfold hotRegionAntiCount in Hone.
  assert (is_int (HotDegree item1 - 1)) as Hh2.
  { rewrite Hd1. unfold is_int, int_min, int_max in *. lia. }
  assert (is_int (AntiCount item1 - 1)) as Ha2.
  { rewrite Hc1, Hone. by unfold is_int, int_min, int_max. }
  rewrite <- Hid in Hget.
  assert (storeID ∈ visitedStores f1 region2) as Hvisit2.
  { unfold visitedStores. rewrite elem_of_elements, getAllStoreIDs_union, Hid.
    apply elem_of_union. left. by apply Hvis1. }
  destruct (cold_heartbeat Denoising2 now2 region2 stats2 f1 h1 storeID item1 bps2 kps2
              Hwf1 Hvisit2 Hget Hexp2 Hrates2 Hcold2 Hh2 Ha2)
    as (items2 & f2 & h2 & item2 & Hrun2 & _ & Hin2 & Huniq2 & Hs2 & Hd2 & Hc2 & Hdel2
        & _ & _ & Hget2 & _).
  rewrite Hc1, Hone in Hdel2, Hc2. cbn in Hdel2, Hc2.
  rewrite Hdel2 in Hget2. rewrite Hid in Hget2.
  exists items2, f2, h2, item2. repeat split; try done.
  rewrite Hd2, Hd1. lia.
Qed.

(** ** What [CheckRegionFlow] does to the heap *)

Section Frame.

Variables (Denoising : bool) (now : Time) (region : RegionInfo) (stats : StoresStats)
          (f : hotPeerCache).

Let after := heapAfter float_oor Denoising now region stats f.
Let afters := heapsAfter float_oor Denoising now region stats f.

Lemma heapAfter_frame storeID (h : Heap) (l : loc) w :
  h !! l = Some w →
  (∀ old, getOldHotPeerStat f (GetID region) storeID = Some old →
          RollingBytesRate old ≠ Some l) →
  after storeID h !! l = Some w.
Proof.
  intros Hl Hne. unfold after, heapAfter.
  destruct (storeRates _ _ _ _ _ _) as [[bps kps]|]; [|done].
  destruct (isRegionExpired f region storeID); [done|].
  destruct (getOldHotPeerStat f (GetID region) storeID) as [old|].
  - specialize (Hne old eq_refl).
    destruct (RollingBytesRate old) as [l'|]; [|done].
    destruct (h !! l') eqn:Hl'; [|done].
    rewrite list_lookup_insert_ne; [done|congruence].
  - destruct (_ <=? _); [|done]. by apply lookup_app_l_Some.
Qed.

Lemma heapsAfter_frame (stores : list Z) (h : Heap) (l : loc) w :
  h !! l = Some w →
  (∀ s old, s ∈ stores → getOldHotPeerStat f (GetID region) s = Some old →
            RollingBytesRate old ≠ Some l) →
  afters stores h !! l = Some w.
Proof.
  revert h. induction stores as [|s stores IH]; intros h Hl Hne; [done|].
  unfold afters. cbn [heapsAfter]. apply IH.
  - apply heapAfter_frame; [done|]. intros old. apply Hne. left.
  - intros s' old Hs'. apply Hne. by right.
Qed.

Lemma heapAfter_sample storeID (h : Heap) (l : loc) w old bps kps :
  getOldHotPeerStat f (GetID region) storeID = Some old →
  RollingBytesRate old = Some l → h !! l = Some w →
  isRegionExpired f region storeID = false →
  storeRates float_oor Denoising now region f storeID = Some (bps, kps) →
  after storeID h !! l = Some (rs_Add w (f64_of_Z bps)).
Proof.
  intros Hold Hl Hw Hexp Hr. unfold after, heapAfter.
  rewrite Hr, Hexp, Hold, Hl, Hw. apply list_lookup_insert_eq.
  by eapply lookup_lt_Some.
Qed.

End Frame.

(** C10 (amended). [CheckRegionFlow] leaves the cache component of the
    state ([peersOfStore], [storesOfRegion] and the stats in them) as it
    was and never shrinks the heap, but it is not free of effects on the
    windows owned by cached stats: a window is left untouched when no
    cached old stat of the region on a visited store owns it, whereas the
    window of an old stat whose store is visited, not skipped and not
    expired holds the current sample once the call returns, without any
    [Update]. *)
Theorem check_writes_old_windows_only
    (Denoising : bool) (now : Time) (region : RegionInfo) (stats : StoresStats)
    (f : hotPeerCache) (h : Heap)
    (Hwf : wf_cache f h) :
  ∃ items h',
    CheckRegionFlow float_oor Denoising now region stats (mkSt f h) = Ok (items, mkSt f h')
    ∧ (length h ≤ length h')%nat
    ∧ (∀ (l : loc) w,
         h !! l = Some w →
         (∀ s old, s ∈ visitedStores f region →
                   getOldHotPeerStat f (GetID region) s = Some old →
                   RollingBytesRate old ≠ Some l) →
         h' !! l = Some w)
    ∧ (∀ storeID old (l : loc) w bps kps,
         storeID ∈ visitedStores f region →
         getOldHotPeerStat f (GetID region) storeID = Some old →
         RollingBytesRate old = Some l → h !! l = Some w →
         isRegionExpired f region storeID = false →
         storeRates float_oor Denoising now region f storeID = Some (bps, kps) →
         (∀ s' old', s' ∈ visitedStores f region → s' ≠ storeID →
                     getOldHotPeerStat f (GetID region) s' = Some old' →
                     RollingBytesRate old' ≠ Some l) →
         h' !! l = Some (rs_Add w (f64_of_Z bps))).
Proof.
  eexists _, _. split; [by apply CheckRegionFlow_run|].
  split; [apply heapsAfter_length|]. split.
  - intros l w Hl Hne. by apply heapsAfter_frame.
  - intros storeID old l w bps kps Hvisit Hold Hl Hw Hexp Hr Hne.
    pose proof (NoDup_elements (getAllStoreIDs f region)) as Hnd.
    fold (visitedStores f region) in Hnd.
    apply list_elem_of_split in Hvisit as (l1 & l2 & Heq).
    rewrite Heq in Hnd, Hne |- *.
    apply NoDup_app in Hnd as (_ & Hdisj & Hnd2).
    apply NoDup_cons in Hnd2 as [Hnotin2 _].
    rewrite (heapsAfter_app Denoising now region stats f l1 (storeID :: l2) h).
    cbn [heapsAfter]. apply heapsAfter_frame.
    + eapply heapAfter_sample; [done|done| |done|done].
      apply heapsAfter_frame; [done|].
      intros s' old' Hs'. apply Hne.
      * apply elem_of_app. by left.
      * intros ->. apply (Hdisj storeID Hs'). left.
    + intros s' old' Hs'. apply Hne.
      * apply elem_of_app. right. by right.
      * by intros ->.
Qed.

(** The same frame for the facade: [CheckWrite] and [CheckRead] return the
    [HotSpotCache] they were given. *)
Lemma CheckWrite_keeps_cache Denoising now region stats w h :
  wf_cache (writeFlow w) h →
  ∃ items h', CheckWrite float_oor Denoising now region stats w h = Ok (items, (w, h')).
Proof.
  intros Hwf. unfold CheckWrite. rewrite CheckRegionFlow_run by done.
  cbn [st_cache st_heap]. destruct w. eauto.
Qed.

Lemma CheckRead_keeps_cache Denoising now region stats w h :
  wf_cache (readFlow w) h →
  ∃ items h', CheckRead float_oor Denoising now region stats w h = Ok (items, (w, h')).
Proof.
  intros Hwf. unfold CheckRead. rewrite CheckRegionFlow_run by done.
  cbn [st_cache st_heap]. destruct w. eauto.
Qed.

(** ** Well-formed states are kept by heartbeats *)

Lemma wf_cache_empty k h : wf_cache (NewHotStoresStats k) h.
Proof. intros s r o. unfold getOldHotPeerStat. simpl. by rewrite lookup_empty. Qed.

Lemma heartbeat_preserves_wf Denoising now region stats s items s' :
  wf_St s →
  heartbeat float_oor Denoising now region stats s = Ok (items, s') →
  wf_St s'.
Proof.
  destruct s as [f h]. unfold wf_St. cbn [st_cache st_heap]. intros Hwf Hrun.
  rewrite heartbeat_run in Hrun by done. injection Hrun as _ <-.
  cbn [st_cache st_heap]. by apply heartbeat_wf.
Qed.

Lemma heartbeat_total Denoising now region stats s :
  wf_St s →
  ∃ items s', heartbeat float_oor Denoising now region stats s = Ok (items, s').
Proof.
  destruct s as [f h]. intros Hwf. eexists _, _. by apply heartbeat_run.
Qed.

(** Every state the cache runs through is well formed, so the
    evaluations never panic on it. *)
Lemma reachable_wf k s : reachable float_oor k s → wf_St s.
Proof.
  induction 1 as [|Denoising now region stats s items s' _ IH Hrun
                  |Denoising now region stats s items s' _ IH Hrun].
  - apply wf_cache_empty.
  - destruct s as [f h]. unfold wf_St in *. cbn [st_cache st_heap] in *.
    rewrite CheckRegionFlow_run in Hrun by done. injection Hrun as _ <-.
    cbn [st_cache st_heap].
    eapply wf_cache_mono; [apply heapsAfter_length|done].
  - by eapply heartbeat_preserves_wf.
Qed.

(** * Further properties of the code *)

(** ** Heartbeats, case by case *)









(** ** Invariants of the states the cache runs through *)

Lemma wrap_int_range z : is_int (wrap_int z).
Proof.
  unfold is_int, wrap_int, int_min, int_max.
  pose proof (Z.mod_pos_bound (z + 2 ^ 63) (2 ^ 64) ltac:(done)). lia.
Qed.

Lemma fold_Update_inv_keys items f regionID storeID o :
  getOldHotPeerStat (fold_left Update items f) regionID storeID = Some o →
  (o ∈ items ∧ needDelete o = false ∧ StoreID o = storeID ∧ RegionID o = regionID)
  ∨ getOldHotPeerStat f regionID storeID = Some o.
Proof.
  revert f. induction items as [|item items IH]; intros f Ho; [by right|].
  simpl in Ho. apply IH in Ho as [(Hin & Hd & Hs & Hr)|Ho].
  - left. split; [by right|done].
  - apply getOld_Update_inv in Ho as [(Hd & -> & -> & ->)|[Ho _]].
    + left. split; [left|done].
    + by right.
Qed.

Lemma stat_ok_kind f f' storeID regionID o :
  kind f' = kind f → stat_ok f storeID regionID o → stat_ok f' storeID regionID o.
Proof. unfold stat_ok. by intros ->. Qed.

Lemma candidate_ok Denoising now region stats f storeID next item :
  cache_ok f →
  candidate float_oor Denoising now region stats f storeID next = Some item →
  needDelete item = false →
  stat_ok f storeID (GetID region) item.
Proof.
  intros Hok. unfold candidate.
  destruct (storeRates _ _ _ _ _ _) as [[bps kps]|]; [|done].
  destruct (isRegionExpired f region storeID) eqn:Hexp.
  { by intros [= <-]. }
  assert (kind f = ReadFlow → (GetStoreId (GetLeader region) =? storeID) = true) as Hlead.
  { intros Hk. unfold isRegionExpired in Hexp. rewrite Hk in Hexp.
    by apply negb_false_iff in Hexp. }
  destruct (getOldHotPeerStat f (GetID region) storeID) as [old|] eqn:Hold.
  - destruct (Hok _ _ _ Hold) as (_ & _ & _ & _ & Hanti & Hint & _).
    destruct (_ <=? _); intros [= <-] Hd.
    + unfold stat_ok, hotSuccessor, int_add. cbn.
      repeat split; try done. all: apply wrap_int_range.
    + revert Hd. unfold stat_ok, coldSuccessor, int_sub. cbn.
      assert (wrap_int (AntiCount old - 1) = AntiCount old - 1) as ->.
      { apply wrap_int_id. unfold hotRegionAntiCount in Hanti.
        unfold is_int, int_min, int_max. lia. }
      destruct (Z.ltb_spec (AntiCount old - 1) 0); cbn; [done|].
      intros _. repeat split; try done; try lia. all: apply wrap_int_range.
  - destruct (_ <=? _); [|done]. intros [= <-] _.
    unfold stat_ok, firstHot. cbn. by repeat split.
Qed.

Lemma heartbeat_cache_ok Denoising now region stats f h :
  wf_cache f h → cache_ok f →
  cache_ok (fold_left Update
              (candidates float_oor Denoising now region stats f (visitedStores f region) h)
              f).
Proof.
  intros Hwf Hok s r o Ho.
  apply stat_ok_kind with f; [apply kind_fold_Update|].
  apply fold_Update_inv_keys in Ho as [(Hin & Hd & Hs & Hr)|Ho]; [|by apply Hok].
  destruct (elem_of_candidates _ _ _ _ _ _ _ _ Hwf Hin) as (s0 & h1 & _ & _ & _ & _ & Hc).
  pose proof (candidate_fields _ _ _ _ _ _ _ _ Hc) as (Hs0 & Hr0 & _).
  rewrite <- Hs, <- Hr, Hr0, Hs0 in *. by eapply candidate_ok.
Qed.

Lemma fold_Update_forward_consistent items f :
  forward_consistent f → forward_consistent (fold_left Update items f).
Proof.
  revert f. induction items as [|item items IH]; intros f Hf; [done|].
  simpl. by apply IH, forward_consistent_Update.
Qed.

(** X4. In every state the cache runs through from its creation, driven
    by evaluations and heartbeats, the stat cached for a store and a
    region carries that store-id, that region-id and the kind of the
    cache, is not marked [needDelete], has an anti-count of 0 or 1, owns
    a window of the heap and, in the read cache, is a leader's stat; and
    its store is recorded for the region. *)
Theorem reachable_cached_stats_ok
    (k : FlowKind) (s : St) (storeID regionID : Z) (o : HotPeerStat)
    (Hreach : reachable float_oor k s)
    (Hcached : getOldHotPeerStat (st_cache s) regionID storeID = Some o) :
  kind (st_cache s) = k
  ∧ StoreID o = storeID ∧ RegionID o = regionID ∧ Kind o = k
  ∧ needDelete o = false
  ∧ (AntiCount o = 0 ∨ AntiCount o = 1)
  ∧ is_int (HotDegree o)
  ∧ (k = ReadFlow → isLeader o = true)
  ∧ (∃ (l : loc) w, RollingBytesRate o = Some l ∧ st_heap s !! l = Some w)
  ∧ storeID ∈ oldStores (st_cache s) regionID.
Proof.
  assert (kind (st_cache s) = k ∧ cache_ok (st_cache s)
          ∧ forward_consistent (st_cache s)) as (Hk & Hok & Hfc).
  { clear Hcached. induction Hreach
      as [|Denoising now region stats s items s' Hreach IH Hrun
          |Denoising now region stats s items s' Hreach IH Hrun].
    - split; [done|]. split; [|apply forward_consistent_empty].
      intros s r o'. unfold getOldHotPeerStat. simpl. by rewrite lookup_empty.
    - pose proof (reachable_wf _ _ Hreach) as Hwf. destruct s as [f h].
      unfold wf_St in Hwf. cbn [st_cache st_heap] in *.
      rewrite CheckRegionFlow_run in Hrun by done. by injection Hrun as _ <-.
    - pose proof (reachable_wf _ _ Hreach) as Hwf. destruct s as [f h].
      unfold wf_St in Hwf. cbn [st_cache st_heap] in *.
      destruct IH as (Hk & Hok & Hfc).
      rewrite heartbeat_run in Hrun by done. injection Hrun as _ <-.
      cbn [st_cache]. split; [by rewrite kind_fold_Update|].
      split; [by apply heartbeat_cache_ok|by apply fold_Update_forward_consistent]. }
  destruct (Hok _ _ _ Hcached) as (H1 & H2 & H3 & H4 & H5 & H6 & H7).
  rewrite Hk in H3, H7. unfold hotRegionAntiCount in H5.
  split; [exact Hk|]. split; [exact H1|]. split; [exact H2|]. split; [exact H3|].
  split; [exact H4|]. split; [lia|]. split; [exact H6|]. split; [exact H7|]. split.
  - apply valid_window_lookup. by apply (reachable_wf _ _ Hreach _ _ _ Hcached).
  - exact (proj1 (forward_consistent_oldStores _) Hfc _ _ _ Hcached).
Qed.

(** X5. On every such state neither [CheckRegionFlow] nor a heartbeat
    panics, whatever the region, the statistics, the clock and the
    denoising option: the evaluation returns its candidates with the
    cache as it was, and the heartbeat returns the same candidates. *)
Theorem reachable_never_panics
    (k : FlowKind) (s : St) (Denoising : bool) (now : Time) (region : RegionInfo)
    (stats : StoresStats)
    (Hreach : reachable float_oor k s) :
  ∃ items h' s',
    CheckRegionFlow float_oor Denoising now region stats s
    = Ok (items, mkSt (st_cache s) h')
    ∧ heartbeat float_oor Denoising now region stats s = Ok (items, s')
    ∧ st_heap s' = h'
    ∧ (∀ item, item ∈ items →
         StoreID item ∈ visitedStores (st_cache s) region
         ∧ RegionID item = GetID region ∧ Kind item = k ∧ LastUpdateTime item = now).
Proof.
  pose proof (reachable_wf _ _ Hreach) as Hwf.
  assert (kind (st_cache s) = k) as Hk.
  { clear Hwf. induction Hreach
      as [|Denoising' now' region' stats' s items s' Hreach IH Hrun
          |Denoising' now' region' stats' s items s' Hreach IH Hrun]; [done| |].
    - pose proof (reachable_wf _ _ Hreach) as Hwf. destruct s as [f h].
      unfold wf_St in Hwf. cbn [st_cache st_heap] in *.
      rewrite CheckRegionFlow_run in Hrun by done. by injection Hrun as _ <-.
    - pose proof (reachable_wf _ _ Hreach) as Hwf. destruct s as [f h].
      unfold wf_St in Hwf. cbn [st_cache st_heap] in *.
      rewrite heartbeat_run in Hrun by done. injection Hrun as _ <-.
      cbn [st_cache]. by rewrite kind_fold_Update. }
  destruct s as [f h]. unfold wf_St in Hwf. cbn [st_cache st_heap] in *.
  eexists _, _, _. split; [by apply CheckRegionFlow_run|].
  split; [by apply heartbeat_run|]. split; [reflexivity|].
  intros item Hin.
  split; [by eapply candidates_StoreID|].
  destruct (elem_of_candidates _ _ _ _ _ _ _ _ Hwf Hin) as (s0 & h1 & _ & _ & _ & _ & Hc).
  pose proof (candidate_fields _ _ _ _ _ _ _ _ Hc) as (_ & Hr & Ht & Hkind).
  by rewrite Hkind, Hk.
Qed.

(** ** What an evaluation emits *)



Lemma calcHotThreshold_ge_min f stats storeID :
  minFlowRate (kind f) ≤ calcHotThreshold float_oor f stats storeID.
Proof.
  unfold calcHotThreshold, minFlowRate, calculateWriteHotThresholdWithStore,
    calculateReadHotThresholdWithStore.
  destruct (kind f); cbv zeta;
    match goal with |- context [?a <? ?b] => destruct (Z.ltb_spec a b) end; lia.
Qed.

Lemma currentStores_not_expired f region s :
  s ∈ currentStores (kind f) region → isRegionExpired f region s = false.
Proof.
  intros Hs. apply elem_of_currentStores in Hs as (p & Hp & Hps & Hlead).
  unfold isRegionExpired. destruct (kind f).
  - unfold GetStorePeer.
    destruct (List.find _ _) eqn:Hfind; [done|].
    apply list_elem_of_In in Hp.
    pose proof (find_none _ _ Hfind p Hp) as Hnone. cbn in Hnone.
    apply Z.eqb_neq in Hnone. done.
  - rewrite <- Hlead by done. by rewrite Z.eqb_refl.
Qed.

Lemma forRange_dropped Denoising now region stats f h l ret :
  (∀ s, s ∈ l → getOldHotPeerStat f (GetID region) s = None
                ∧ isRegionExpired f region s = false) →
  bytesPerSecInit float_oor f region < minFlowRate (kind f) →
  forRange (checkStore float_oor Denoising now region stats
              (getBytesFlow f region) (getKeysFlow f region)
              (bytesPerSecInit float_oor f region) (keysPerSecInit float_oor f region))
           l ret (mkSt f h)
  = Ok (ret, mkSt f h).
Proof.
  intros Hall Hcold. induction l as [|s l IH]; [done|].
  destruct (Hall s) as [Hold Hexp]; [left|].
  cbn [forRange]. rewrite bind_run. unfold checkStore at 1.
  rewrite bind_run. unfold getCache. cbn [st_cache].
  rewrite Hold, Hexp. cbn [option_map denoise].
  rewrite bind_run, updateHotPeerStat_drop; [|done|].
  - rewrite ret_run. apply IH. intros s' Hs'. apply Hall. by right.
  - pose proof (calcHotThreshold_ge_min f stats s). lia.
Qed.

(** X7. A region the cache knows nothing of (no store recorded, no stat
    cached) and whose nominal byte rate is below the minimum flow rate of
    the kind is ignored: the evaluation returns no candidate and the
    heartbeat leaves the cache and the heap exactly as they were, whatever
    the store statistics. *)
Theorem cold_unknown_region_is_ignored
    (Denoising : bool) (now : Time) (region : RegionInfo) (stats : StoresStats)
    (f : hotPeerCache) (h : Heap)
    (Hfc : forward_consistent f)
    (Hstores : oldStores f (GetID region) = ∅)
    (Hcold : bytesPerSecInit float_oor f region < minFlowRate (kind f)) :
  CheckRegionFlow float_oor Denoising now region stats (mkSt f h) = Ok ([], mkSt f h)
  ∧ heartbeat float_oor Denoising now region stats (mkSt f h) = Ok ([], mkSt f h).
Proof.
  assert (CheckRegionFlow float_oor Denoising now region stats (mkSt f h)
          = Ok ([], mkSt f h)) as Hcheck.
  { unfold CheckRegionFlow. rewrite bind_run. unfold getCache. cbn [st_cache].
    apply forRange_dropped; [|done].
    intros s Hs. unfold visitedStores in Hs.
    rewrite elem_of_elements, getAllStoreIDs_union, Hstores in Hs.
    split; [|apply currentStores_not_expired; set_solver].
    destruct (getOldHotPeerStat f (GetID region) s) as [o|] eqn:Ho; [|done].
    pose proof (proj1 (forward_consistent_oldStores f) Hfc _ _ _ Ho) as Hin.
    rewrite Hstores in Hin. set_solver. }
  split; [exact Hcheck|].
  unfold heartbeat. rewrite bind_run, Hcheck. reflexivity.
Qed.

Lemma candidate_flags Denoising now region stats f storeID next item :
  candidate float_oor Denoising now region stats f storeID next = Some item →
  isLeader item = (GetStoreId (GetLeader region) =? storeID)
  ∧ (isRegionExpired f region storeID = true →
     needDelete item = true ∧ isNew item = false ∧ RollingBytesRate item = None
     ∧ HotDegree item = 0 ∧ AntiCount item = 0)
  ∧ (isNew item = true ↔
     getOldHotPeerStat f (GetID region) storeID = None
     ∧ isRegionExpired f region storeID = false)
  ∧ (isNew item = true → needDelete item = false ∧ HotDegree item = 0)
  ∧ (needDelete item = false → isRegionExpired f region storeID = false).
Proof.
  unfold candidate.
  destruct (storeRates _ _ _ _ _ _) as [[bps kps]|]; [|done].
  destruct (isRegionExpired f region storeID).
  { intros [= <-]. cbn. repeat split; try done. by intros [_ ?]. }
  destruct (getOldHotPeerStat f (GetID region) storeID) as [old|].
  - destruct (_ <=? _); intros [= <-].
    + cbn. repeat split; try done. by intros [? _].
    + unfold coldSuccessor. destruct (_ <? _); cbn; repeat split; try done.
      all: by intros [? _].
  - destruct (_ <=? _); [|done]. intros [= <-]. cbn. by repeat split.
Qed.

(** X8. In the read cache an evaluation keeps the leader only: every
    emitted stat has [isLeader] set exactly when its store is the
    leader's, every stat emitted for another store is marked [needDelete]
    with degree 0 and no window, and a stat that is not marked
    [needDelete] is the leader's. *)
Theorem read_flow_keeps_leader_only
    (Denoising : bool) (now : Time) (region : RegionInfo) (stats : StoresStats)
    (f : hotPeerCache) (h : Heap)
    (Hwf : wf_cache f h)
    (Hkind : kind f = ReadFlow) :
  ∃ items h',
    CheckRegionFlow float_oor Denoising now region stats (mkSt f h) = Ok (items, mkSt f h')
    ∧ ∀ item, item ∈ items →
        isLeader item = (GetStoreId (GetLeader region) =? StoreID item)
        ∧ (StoreID item ≠ GetStoreId (GetLeader region) →
           needDelete item = true ∧ isLeader item = false
           ∧ HotDegree item = 0 ∧ RollingBytesRate item = None)
        ∧ (needDelete item = false →
           StoreID item = GetStoreId (GetLeader region) ∧ isLeader item = true).
Proof.
  eexists _, _. split; [by apply CheckRegionFlow_run|].
  intros item Hin.
  destruct (elem_of_candidates _ _ _ _ _ _ _ _ Hwf Hin) as (s0 & h1 & _ & _ & _ & _ & Hc).
  pose proof (candidate_fields _ _ _ _ _ _ _ _ Hc) as (Hs & _).
  destruct (candidate_flags _ _ _ _ _ _ _ _ Hc) as (Hlead & Hexp & _ & _ & Hlive).
  rewrite Hs. unfold isRegionExpired in Hexp, Hlive. rewrite Hkind in Hexp, Hlive.
  split; [exact Hlead|]. split.
  - intros Hne. destruct (Z.eqb_spec (GetStoreId (GetLeader region)) s0) as [Heq|_].
    { by destruct Hne. }
    destruct (Hexp eq_refl) as (? & _ & ? & ? & _). by rewrite Hlead.
  - intros Hd. specialize (Hlive Hd). apply negb_false_iff in Hlive.
    rewrite Hlead, Hlive. split; [|done]. symmetry. by apply Z.eqb_eq.
Qed.

(** X9. The counter of [HotSpotCache.Update] names the transition of the
    emitted stat: [remove_item] exactly for the stats marked
    [needDelete], [add_item] exactly for the stats of a live peer that had
    no cached stat (they start at degree 0), [update_item] exactly for
    the stats that replace a cached one; the event carries the store and
    the kind of the cache. *)
Theorem update_counter_names_the_transition
    (Denoising : bool) (now : Time) (region : RegionInfo) (stats : StoresStats)
    (f : hotPeerCache) (h : Heap)
    (Hwf : wf_cache f h) :
  ∃ items h',
    CheckRegionFlow float_oor Denoising now region stats (mkSt f h) = Ok (items, mkSt f h')
    ∧ ∀ item, item ∈ items →
        snd (Metrics.updateEvent item) = kind f
        ∧ (Metrics.updateAction item = Metrics.remove_item ↔ needDelete item = true)
        ∧ (Metrics.updateAction item = Metrics.add_item ↔
           getOldHotPeerStat f (GetID region) (StoreID item) = None
           ∧ isRegionExpired f region (StoreID item) = false)
        ∧ (Metrics.updateAction item = Metrics.add_item → HotDegree item = 0)
        ∧ (Metrics.updateAction item = Metrics.update_item ↔
           needDelete item = false
           ∧ ∃ old, getOldHotPeerStat f (GetID region) (StoreID item) = Some old).
Proof.
  eexists _, _. split; [by apply CheckRegionFlow_run|].
  intros item Hin.
  destruct (elem_of_candidates _ _ _ _ _ _ _ _ Hwf Hin) as (s0 & h1 & _ & _ & _ & _ & Hc).
  pose proof (candidate_fields _ _ _ _ _ _ _ _ Hc) as (Hs & _ & _ & Hk).
  destruct (candidate_flags _ _ _ _ _ _ _ _ Hc) as (_ & Hexp & Hnew & Hnew' & Hlive).
  rewrite Hs. split; [exact Hk|].
  assert (Metrics.remove_item ≠ Metrics.add_item
          ∧ Metrics.remove_item ≠ Metrics.update_item
          ∧ Metrics.add_item ≠ Metrics.update_item) as (Hra & Hru & Hau).
  { repeat split; intros Heq; vm_compute in Heq; discriminate Heq. }
  unfold Metrics.updateAction, IsNeedDelete, IsNew.
  destruct (needDelete item) eqn:Hd.
  - split; [done|]. split; [|split].
    + split; [done|]. intros Hn. apply Hnew in Hn. by destruct (Hnew' Hn).
    + done.
    + split; [done|]. by intros [? _].
  - specialize (Hlive eq_refl).
    destruct (isNew item) eqn:Hn.
    + split; [split; [by intros ?%symmetry|done]|].
      split; [split; [intros _; by apply Hnew|done]|].
      split; [intros _; by apply Hnew'|].
      split; [done|]. intros (_ & old & Hold).
      destruct (proj1 Hnew eq_refl) as [Hnone _]. congruence.
    + split; [split; [by intros ?%symmetry|done]|].
      split; [split; [by intros ?%symmetry|]|].
      { intros Hn'. apply Hnew in Hn'. done. }
      split; [by intros ?%symmetry|]. split; [|done]. intros _. split; [done|].
      destruct (getOldHotPeerStat f (GetID region) s0) as [old|] eqn:Hold; [eauto|].
      assert (false = true) by (by apply Hnew). done.
Qed.

(** ** The facade *)

Lemma CheckRegionFlow_Kind Denoising now region stats f h items s' :
  wf_cache f h →
  CheckRegionFlow float_oor Denoising now region stats (mkSt f h) = Ok (items, s') →
  ∀ item, item ∈ items → Kind item = kind f.
Proof.
  intros Hwf Hrun item Hin. rewrite CheckRegionFlow_run in Hrun by done.
  injection Hrun as <- _.
  destruct (elem_of_candidates _ _ _ _ _ _ _ _ Hwf Hin) as (s0 & h1 & _ & _ & _ & _ & Hc).
  by pose proof (candidate_fields _ _ _ _ _ _ _ _ Hc) as (_ & _ & _ & ?).
Qed.

(** X10. The facade sends every candidate back to the cache that emitted
    it: the stats returned by [CheckWrite] have the write kind and
    [HotSpotCache.Update] applies them to the write cache and leaves the
    read cache untouched, and conversely for [CheckRead]; [Update] never
    changes the kind of either cache, whatever the item. *)
Theorem facade_update_returns_to_emitting_cache
    (Denoising : bool) (now : Time) (region : RegionInfo) (stats : StoresStats)
    (w : HotSpotCache) (h : Heap)
    (Hwrite : kind (writeFlow w) = WriteFlow)
    (Hread : kind (readFlow w) = ReadFlow)
    (Hwf_write : wf_cache (writeFlow w) h)
    (Hwf_read : wf_cache (readFlow w) h) :
  (∃ items h',
     CheckWrite float_oor Denoising now region stats w h = Ok (items, (w, h'))
     ∧ ∀ item, item ∈ items →
         Kind item = WriteFlow
         ∧ HotSpotCache_Update w item
           = mkHotSpotCache (Update (writeFlow w) item) (readFlow w))
  ∧ (∃ items h',
       CheckRead float_oor Denoising now region stats w h = Ok (items, (w, h'))
       ∧ ∀ item, item ∈ items →
           Kind item = ReadFlow
           ∧ HotSpotCache_Update w item
             = mkHotSpotCache (writeFlow w) (Update (readFlow w) item))
  ∧ (∀ item,
       kind (writeFlow (HotSpotCache_Update w item)) = WriteFlow
       ∧ kind (readFlow (HotSpotCache_Update w item)) = ReadFlow).
Proof.
  split; [|split].
  - destruct (CheckWrite_keeps_cache Denoising now region stats w h Hwf_write)
      as (items & h' & Hrun).
    exists items, h'. split; [exact Hrun|]. intros item Hin.
    assert (Kind item = WriteFlow) as Hk.
    { unfold CheckWrite in Hrun.
      destruct (CheckRegionFlow float_oor Denoising now region stats
                  (mkSt (writeFlow w) h)) as [[items' s']|] eqn:Hc; [|done].
      injection Hrun as -> _ _.
      rewrite <- Hwrite. by eapply CheckRegionFlow_Kind. }
    split; [exact Hk|]. unfold HotSpotCache_Update. by rewrite Hk.
  - destruct (CheckRead_keeps_cache Denoising now region stats w h Hwf_read)
      as (items & h' & Hrun).
    exists items, h'. split; [exact Hrun|]. intros item Hin.
    assert (Kind item = ReadFlow) as Hk.
    { unfold CheckRead in Hrun.
      destruct (CheckRegionFlow float_oor Denoising now region stats
                  (mkSt (readFlow w) h)) as [[items' s']|] eqn:Hc; [|done].
      injection Hrun as -> _ _.
      rewrite <- Hread. by eapply CheckRegionFlow_Kind. }
    split; [exact Hk|]. unfold HotSpotCache_Update. by rewrite Hk.
  - intros item. unfold HotSpotCache_Update.
    destruct (Kind item); cbn [writeFlow readFlow]; by rewrite ?kind_Update.
Qed.

(** ** [IsRegionHot] *)

Lemma isRegionHotWithPeer_true f region peer hotDegree :
  isRegionHotWithPeer f region peer hotDegree = true ↔
  ∃ p stat,
    peer = Some p
    ∧ getOldHotPeerStat f (GetID region) (peer_StoreId p) = Some stat
    ∧ hotDegree ≤ HotDegree stat.
Proof.
  unfold isRegionHotWithPeer. destruct peer as [p|].
  - destruct (getOldHotPeerStat f (GetID region) (peer_StoreId p)) as [stat|] eqn:Hold.
    + rewrite Z.leb_le. split.
      * intros Hle. exists p, stat. by rewrite Hold.
      * intros (p' & stat' & [= <-] & Hs & Hle). congruence.
    + split; [done|]. intros (p' & stat' & [= <-] & Hs & _). congruence.
  - split; [done|]. by intros (? & ? & ? & _).
Qed.

Lemma isRegionHotWithAnyPeers_true f region hotDegree :
  isRegionHotWithAnyPeers f region hotDegree = true ↔
  ∃ p stat,
    p ∈ GetPeers region
    ∧ getOldHotPeerStat f (GetID region) (peer_StoreId p) = Some stat
    ∧ hotDegree ≤ HotDegree stat.
Proof.
  unfold isRegionHotWithAnyPeers. rewrite existsb_exists. split.
  - intros (p & Hp & Hhot). apply isRegionHotWithPeer_true in Hhot
      as (p' & stat & [= <-] & Hs & Hle).
    exists p, stat. by rewrite list_elem_of_In.
  - intros (p & stat & Hp & Hs & Hle). exists p. rewrite <- list_elem_of_In.
    split; [done|]. apply isRegionHotWithPeer_true. by exists p, stat.
Qed.

(** X11. [IsRegionHot] answers true exactly when a cached stat of the
    region reaches the degree: on the store of any current peer in the
    write cache, on the store of the leader in the read cache (never for a
    region without leader); and it is antitone in the degree asked for. *)
Theorem IsRegionHot_finds_cached_degree
    (f : hotPeerCache) (region : RegionInfo) (hotDegree : Z) :
  (kind f = WriteFlow →
     (IsRegionHot f region hotDegree = true ↔
      ∃ p stat,
        p ∈ GetPeers region
        ∧ getOldHotPeerStat f (GetID region) (peer_StoreId p) = Some stat
        ∧ hotDegree ≤ HotDegree stat))
  ∧ (kind f = ReadFlow →
     (IsRegionHot f region hotDegree = true ↔
      ∃ p stat,
        GetLeader region = Some p
        ∧ getOldHotPeerStat f (GetID region) (peer_StoreId p) = Some stat
        ∧ hotDegree ≤ HotDegree stat))
  ∧ (∀ lower, lower ≤ hotDegree →
       IsRegionHot f region hotDegree = true → IsRegionHot f region lower = true).
Proof.
  split; [|split].
  - intros Hk. unfold IsRegionHot. rewrite Hk. apply isRegionHotWithAnyPeers_true.
  - intros Hk. unfold IsRegionHot. rewrite Hk. rewrite isRegionHotWithPeer_true.
    split; intros (p & stat & H1 & H2 & H3); by exists p, stat.
  - intros lower Hle. unfold IsRegionHot. destruct (kind f).
    + rewrite !isRegionHotWithAnyPeers_true. intros (p & stat & Hp & Hs & Hd).
      exists p, stat. repeat split; [done|done|lia].
    + rewrite !isRegionHotWithPeer_true. intros (p & stat & Hp & Hs & Hd).
      exists p, stat. repeat split; [done|done|lia].
Qed.

(** X12. The facade's [IsRegionHot] is true exactly when a current peer
    of the region has a write stat, or its leader a read stat, of at
    least the degree asked for; moving the dispatch on the kind into
    [hotPeerCache.IsRegionHot] kept the answer of the earlier
    [HotSpotCache.IsRegionHot] of [hot_cache.go]. *)
Theorem facade_IsRegionHot_write_peers_or_read_leader
    (w : HotSpotCache) (region : RegionInfo) (hotDegree : Z)
    (Hwrite : kind (writeFlow w) = WriteFlow)
    (Hread : kind (readFlow w) = ReadFlow) :
  (HotSpotCache_IsRegionHot w region hotDegree = true ↔
     (∃ p stat,
        p ∈ GetPeers region
        ∧ getOldHotPeerStat (writeFlow w) (GetID region) (peer_StoreId p) = Some stat
        ∧ hotDegree ≤ HotDegree stat)
     ∨ (∃ p stat,
          GetLeader region = Some p
          ∧ getOldHotPeerStat (readFlow w) (GetID region) (peer_StoreId p) = Some stat
          ∧ hotDegree ≤ HotDegree stat))
  ∧ HotSpotCache_IsRegionHot_v0 w region hotDegree
    = HotSpotCache_IsRegionHot w region hotDegree.
Proof.
  unfold HotSpotCache_IsRegionHot, HotSpotCache_IsRegionHot_v0, IsRegionHot.
  rewrite Hwrite, Hread. split.
  - rewrite orb_true_iff, isRegionHotWithAnyPeers_true, isRegionHotWithPeer_true.
    split; (intros [H|H]; [left; exact H|right]).
    + destruct H as (p & stat & H1 & H2 & H3). by exists p, stat.
    + destruct H as (p & stat & H1 & H2 & H3). by exists p, stat.
  - by destruct (isRegionHotWithAnyPeers _ _ _).
Qed.

(** ** [RegionStats] and [RandHotRegionFromStore] *)

Lemma pickHot_spec stats hotDegree order :
  (∀ i, i ∈ order → (i < length stats)%nat) →
  ∃ r,
    pickHot stats hotDegree order = Ok r
    ∧ (∀ stat, r = Some stat → stat ∈ stats ∧ hotDegree ≤ HotDegree stat)
    ∧ (r = None ↔
       ∀ i stat, i ∈ order → stats !! i = Some stat → HotDegree stat < hotDegree).
Proof.
  induction order as [|i order IH]; intros Hb.
  - exists None. split; [done|]. split; [done|]. split; [|done].
    intros _ i stat Hi. by apply elem_of_nil in Hi.
  - cbn [pickHot].
    destruct (lookup_lt_is_Some_2 stats i (Hb i ltac:(left))) as [stat Hstat].
    rewrite Hstat. destruct (Z.leb_spec hotDegree (HotDegree stat)) as [Hle|Hlt].
    + exists (Some stat). split; [done|]. split.
      * intros ? [= <-]. split; [|done]. by eapply list_elem_of_lookup_2.
      * split; [done|]. intros Hall. specialize (Hall i stat ltac:(left) Hstat). lia.
    + destruct IH as (r & Hrun & Hsome & Hnone).
      { intros j Hj. apply Hb. by right. }
      exists r. split; [done|]. split; [done|]. rewrite Hnone. split.
      * intros Hall j st [->|Hj]%elem_of_cons Hst; [congruence|by eapply Hall].
      * intros Hall j st Hj. apply Hall. by right.
Qed.

Lemma RandHotRegionFromStore_tracked
    (randPerm : nat → list nat) (w : HotSpotCache) (storeID : Z) (k : FlowKind)
    (hotDegree : Z) (stats : list HotPeerStat) :
  (∀ n, Permutation (randPerm n) (seq 0 n)) →
  RegionStats w k !! storeID = Some stats →
  ∃ r,
    RandHotRegionFromStore randPerm w storeID k hotDegree = Ok r
    ∧ (∀ stat, r = Some stat → stat ∈ stats ∧ hotDegree ≤ HotDegree stat)
    ∧ (r = None ↔ ∀ stat, stat ∈ stats → HotDegree stat < hotDegree).
Proof.
  intros Hperm Hstats. unfold RandHotRegionFromStore. rewrite Hstats.
  destruct (pickHot_spec stats hotDegree (randPerm (length stats)))
    as (r & Hrun & Hsome & Hnone).
  { intros i Hi. rewrite (Hperm (length stats)) in Hi.
    apply elem_of_seq in Hi. lia. }
  exists r. split; [done|]. split; [done|]. rewrite Hnone. split.
  - intros Hall stat Hin. apply list_elem_of_lookup in Hin as [i Hi].
    apply (Hall i); [|done]. rewrite (Hperm (length stats)).
    apply elem_of_seq. apply lookup_lt_Some in Hi. lia.
  - intros Hall i stat _ Hi. apply Hall. by eapply list_elem_of_lookup_2.
Qed.

(** X13. Whatever permutation [rand.Perm] draws,
    [RandHotRegionFromStore] does not panic, returns nothing for a store
    the kind's cache does not track, and for a tracked store returns a
    stat of [RegionStats] whose degree reaches the threshold whenever
    there is one, and nothing only when there is none. *)
Theorem RandHotRegionFromStore_finds_a_hot_stat
    (randPerm : nat → list nat) (w : HotSpotCache) (storeID : Z) (k : FlowKind)
    (hotDegree : Z)
    (Hperm : ∀ n, Permutation (randPerm n) (seq 0 n)) :
  (peersOfStore (flowOf w k) !! storeID = None →
     RandHotRegionFromStore randPerm w storeID k hotDegree = Ok None)
  ∧ (∀ stats, RegionStats w k !! storeID = Some stats →
       ∃ r,
         RandHotRegionFromStore randPerm w storeID k hotDegree = Ok r
         ∧ (∀ stat, r = Some stat → stat ∈ stats ∧ hotDegree ≤ HotDegree stat)
         ∧ (r = None ↔ ∀ stat, stat ∈ stats → HotDegree stat < hotDegree)).
Proof.
  split.
  - intros Hnone. unfold RandHotRegionFromStore, RegionStats.
    by rewrite lookup_fmap, Hnone.
  - intros stats Hstats. by apply RandHotRegionFromStore_tracked.
Qed.

Lemma entries_find_elem k l v : entries_find k l = Some v → v ∈ List.map snd l.
Proof.
  induction l as [|e l IH]; [done|].
  rewrite entries_find_cons. cbn [List.map]. destruct (fst e =? k).
  - intros [= <-]. left.
  - intros H. right. by apply IH.
Qed.

Lemma cache_Peek_Elems c k v : cache_Peek c k = Some v → v ∈ cache_Elems c.
Proof.
  unfold cache_Peek, cache_Elems. rewrite map_app, elem_of_app.
  destruct (entries_find k (cache_main c)) eqn:E.
  - intros [= <-]. left. by eapply entries_find_elem.
  - intros H. right. by eapply entries_find_elem.
Qed.

(** X14. A stat cached for some region on a store is listed by
    [RegionStats] for that store; so when its degree reaches the
    threshold, [RandHotRegionFromStore] returns a stat for the store,
    whatever permutation is drawn. *)
Theorem cached_hot_stat_is_offered
    (randPerm : nat → list nat) (w : HotSpotCache) (storeID regionID : Z) (k : FlowKind)
    (hotDegree : Z) (o : HotPeerStat)
    (Hperm : ∀ n, Permutation (randPerm n) (seq 0 n))
    (Hcached : getOldHotPeerStat (flowOf w k) regionID storeID = Some o)
    (Hhot : hotDegree ≤ HotDegree o) :
  (∃ stats, RegionStats w k !! storeID = Some stats ∧ o ∈ stats)
  ∧ ∃ stat,
      RandHotRegionFromStore randPerm w storeID k hotDegree = Ok (Some stat)
      ∧ hotDegree ≤ HotDegree stat.
Proof.
  unfold getOldHotPeerStat in Hcached.
  destruct (peersOfStore (flowOf w k) !! storeID) as [c|] eqn:Hc; [|done].
  assert (RegionStats w k !! storeID = Some (cache_Elems c)) as Hstats.
  { unfold RegionStats. by rewrite lookup_fmap, Hc. }
  pose proof (cache_Peek_Elems _ _ _ Hcached) as Hin.
  split; [by exists (cache_Elems c)|].
  destruct (RandHotRegionFromStore_tracked randPerm w storeID k hotDegree
              (cache_Elems c) Hperm Hstats) as (r & Hrun & Hsome & Hnone).
  destruct r as [stat|].
  - exists stat. split; [done|]. by apply Hsome.
  - specialize (proj1 Hnone eq_refl o Hin). lia.
Qed.

(** ** The earlier variants *)

Lemma divisor_v0 :
  f64_mul (f64_of_Z storeStatCacheMaxLen) (f64_of_Z 2) = f64_of_Z hotPeerMaxCount.
Proof. vm_compute. reflexivity. Qed.

Lemma calcHotThreshold_v1_eq f storeID stats :
  calcHotThreshold_v1 float_oor f storeID stats = calcHotThreshold float_oor f stats storeID.
Proof.
  unfold calcHotThreshold_v1, calcHotThreshold,
    calculateWriteHotThresholdWithStore_v0, calculateReadHotThresholdWithStore_v0,
    calculateWriteHotThresholdWithStore, calculateReadHotThresholdWithStore.
  by rewrite divisor_v0.
Qed.

(** X15. Replacing the divisor [float64(storeStatCacheMaxLen) * 2] of the
    thresholds of [hot_cache.go] by [float64(hotPeerMaxCount)] changed no
    threshold: for every store and every store statistics the two
    versions return the same number. *)
Theorem threshold_divisor_unchanged (stats : StoresStats) (storeID : Z) :
  calculateWriteHotThresholdWithStore_v0 float_oor stats storeID
  = calculateWriteHotThresholdWithStore float_oor stats storeID
  ∧ calculateReadHotThresholdWithStore_v0 float_oor stats storeID
    = calculateReadHotThresholdWithStore float_oor stats storeID.
Proof.
  unfold calculateWriteHotThresholdWithStore_v0, calculateReadHotThresholdWithStore_v0,
    calculateWriteHotThresholdWithStore, calculateReadHotThresholdWithStore.
  by rewrite divisor_v0.
Qed.

Lemma updateHotPeerStat_v1_eq newItem oldItem bytesRate keysRate hotThreshold :
  updateHotPeerStat_v1 newItem oldItem bytesRate keysRate (hotThreshold <=? bytesRate)
  = updateHotPeerStat newItem oldItem bytesRate hotThreshold.
Proof. reflexivity. Qed.

Lemma checkStore_v1_eq Denoising now region stats bytesFlow keysFlow bInit kInit
    storeID ret s :
  checkStore_v1 float_oor Denoising now region stats bytesFlow keysFlow bInit kInit
    storeID ret s
  = checkStore float_oor Denoising now region stats bytesFlow keysFlow bInit kInit
      storeID ret s.
Proof.
  unfold checkStore_v1, checkStore. rewrite !bind_run.
  cbn [getCache fst snd]. unfold getOldHotPeerStat.
  destruct (peersOfStore (st_cache s) !! storeID) as [c|]; cbn [mbind option_bind].
  - destruct (cache_Peek c (GetID region)) as [old|]; cbn [option_map denoise].
    + destruct Denoising.
      * destruct (f64_ltb _ _ && negb _); [done|].
        by rewrite calcHotThreshold_v1_eq, updateHotPeerStat_v1_eq.
      * by rewrite calcHotThreshold_v1_eq, updateHotPeerStat_v1_eq.
    + by rewrite calcHotThreshold_v1_eq, updateHotPeerStat_v1_eq.
  - cbn [option_map denoise].
    by rewrite calcHotThreshold_v1_eq, updateHotPeerStat_v1_eq.
Qed.

Lemma forRange_ext {A B} (body body' : A → B → M B) l :
  (∀ a b s, body a b s = body' a b s) →
  ∀ ret s, forRange body l ret s = forRange body' l ret s.
Proof.
  intros Hext. induction l as [|a l IH]; intros ret s; [done|].
  cbn [forRange]. rewrite !bind_run, Hext.
  destruct (body' a ret s) as [[b s']|]; [apply IH|done].
Qed.

(** X16. Factoring [getOldHotPeerStat] out of the loop of
    [CheckRegionFlow] and passing the threshold instead of [isHot] to
    [updateHotPeerStat] changed no behaviour: from every state, the
    earlier [CheckRegionFlow] of [hot_cache.go] and the one of
    [hot_peer_cache.go] return the same candidates and leave the same
    state, panics included. *)
Theorem CheckRegionFlow_refactoring_preserves_behaviour
    (Denoising : bool) (now : Time) (region : RegionInfo) (stats : StoresStats) (s : St) :
  CheckRegionFlow_v1 float_oor Denoising now region stats s
  = CheckRegionFlow float_oor Denoising now region stats s.
Proof.
  unfold CheckRegionFlow_v1, CheckRegionFlow. rewrite !bind_run.
  cbn [getCache fst snd]. apply forRange_ext. intros. apply checkStore_v1_eq.
Qed.

(** ** [Update] as seen through the lookups *)

(** X17. After [Update], the lookup of the item's own region and store
    gives the item back, or nothing when the item asks for deletion, and
    the store is among the region's stores exactly in the first case;
    stats of other stores are untouched, and no other stat appears: a
    stat found afterwards under another key was there before. *)
Theorem Update_then_lookup (f : hotPeerCache) (item : HotPeerStat) :
  getOldHotPeerStat (Update f item) (RegionID item) (StoreID item)
  = (if IsNeedDelete item then None else Some item)
  ∧ (StoreID item ∈ oldStores (Update f item) (RegionID item)
     ↔ IsNeedDelete item = false)
  ∧ (∀ regionID storeID,
       storeID ≠ StoreID item →
       getOldHotPeerStat (Update f item) regionID storeID
       = getOldHotPeerStat f regionID storeID)
  ∧ (∀ regionID storeID o,
       getOldHotPeerStat (Update f item) regionID storeID = Some o →
       ¬ (storeID = StoreID item ∧ regionID = RegionID item) →
       getOldHotPeerStat f regionID storeID = Some o).
Proof.
  split; [|split; [|split]].
  - destruct (IsNeedDelete item) eqn:Hd.
    + by apply getOld_Update_delete.
    + by apply getOld_Update_put.
  - destruct (IsNeedDelete item) eqn:Hd.
    + rewrite oldStores_Update_delete by done. set_solver.
    + rewrite oldStores_Update_put by done. set_solver.
  - intros regionID storeID Hs. by apply getOld_Update_other_store.
  - intros regionID storeID o Ho Hne.
    destruct (getOld_Update_inv _ _ _ _ _ Ho) as [(_ & -> & -> & _)|[Hold _]]; [|done].
    by destruct Hne.
Qed.

(** ** Windows are not shared *)

Section Windows.

Variables (Denoising : bool) (now : Time) (region : RegionInfo) (stats : StoresStats)
          (f : hotPeerCache).

Let cand := candidate float_oor Denoising now region stats f.
Let after := heapAfter float_oor Denoising now region stats f.
Let cands := candidates float_oor Denoising now region stats f.
Let afters := heapsAfter float_oor Denoising now region stats f.

(** A candidate that is kept carries the window of its old stat, or the
    location allocated in its round. *)
Lemma candidate_window_origin storeID h item :
  cand storeID (length h) = Some item →
  needDelete item = false →
  match getOldHotPeerStat f (GetID region) storeID with
  | Some old => RollingBytesRate item = RollingBytesRate old
  | None =>
      RollingBytesRate item = Some (length h)
      ∧ length (after storeID h) = S (length h)
  end.
Proof.
  unfold cand, after, candidate, heapAfter.
  destruct (storeRates _ _ _ _ _ _) as [[bps kps]|]; [|done].
  destruct (isRegionExpired f region storeID) eqn:Hexp.
  { intros [= <-]. by cbn. }
  destruct (getOldHotPeerStat f (GetID region) storeID) as [old|] eqn:Hold.
  - intros Hit _. destruct (_ <=? _); injection Hit as <-; [by cbn|].
    unfold coldSuccessor. by destruct (_ <? _); cbn.
  - destruct (_ <=? _); [|done]. intros [= <-] _. cbn.
    split; [done|]. rewrite length_app. simpl. lia.
Qed.

Lemma candidates_window_origin l h item :
  wf_cache f h → item ∈ cands l h → needDelete item = false →
  RegionID item = GetID region
  ∧ match getOldHotPeerStat f (GetID region) (StoreID item) with
    | Some old => RollingBytesRate item = RollingBytesRate old
    | None =>
        ∃ n, RollingBytesRate item = Some n
             ∧ (length h ≤ n < length (afters l h))%nat
    end.
Proof.
  intros Hwf Hin Hd.
  destruct (elem_of_candidates _ _ _ _ _ _ _ _ Hwf Hin)
    as (s & h1 & Hs & Hwf1 & Hle & Hle' & Hc).
  pose proof (candidate_fields _ _ _ _ _ _ _ _ Hc) as (Hst & Hr & _).
  split; [exact Hr|]. rewrite Hst.
  pose proof (candidate_window_origin _ _ _ Hc Hd) as Ho.
  destruct (getOldHotPeerStat f (GetID region) s); [done|].
  destruct Ho as [Hw Hlen]. exists (length h1). split; [done|].
  unfold after, afters in *. lia.
Qed.

Lemma candidates_fresh_inj l h a b :
  wf_cache f h → a ∈ cands l h → b ∈ cands l h →
  needDelete a = false → needDelete b = false →
  getOldHotPeerStat f (GetID region) (StoreID a) = None →
  getOldHotPeerStat f (GetID region) (StoreID b) = None →
  RollingBytesRate a = RollingBytesRate b →
  StoreID a = StoreID b.
Proof.
  revert h. induction l as [|s l IH]; intros h Hwf Ha Hb Hda Hdb Hoa Hob Hw.
  { by apply elem_of_nil in Ha. }
  assert (wf_cache f (after s h)) as Hwf'.
  { eapply wf_cache_mono; [apply heapAfter_length|done]. }
  assert (∀ x y, x ∈ match cand s (length h) with Some item => [item] | None => [] end →
                 y ∈ cands l (after s h) →
                 needDelete x = false → needDelete y = false →
                 getOldHotPeerStat f (GetID region) (StoreID x) = None →
                 getOldHotPeerStat f (GetID region) (StoreID y) = None →
                 RollingBytesRate x ≠ RollingBytesRate y) as Hht.
  { intros x y Hx Hy Hdx Hdy Hox Hoy Heq.
    destruct (cand s (length h)) as [it|] eqn:Hc; [|by apply elem_of_nil in Hx].
    apply list_elem_of_singleton in Hx as ->.
    pose proof (candidate_fields _ _ _ _ _ _ _ _ Hc) as (Hst & _).
    pose proof (candidate_window_origin _ _ _ Hc Hdx) as Ho.
    rewrite Hst in Hox. rewrite Hox in Ho. destruct Ho as [Hwx Hlen].
    destruct (candidates_window_origin _ _ _ Hwf' Hy Hdy) as [_ Hy'].
    rewrite Hoy in Hy'. destruct Hy' as (n & Hwy & Hn).
    rewrite Hwx, Hwy in Heq. injection Heq as Heq. lia. }
  unfold cands in Ha, Hb. cbn [candidates] in Ha, Hb.
  apply elem_of_app in Ha as [Ha|Ha], Hb as [Hb|Hb].
  - fold cand in Ha, Hb. destruct (cand s (length h)) as [it|];
      [|by apply elem_of_nil in Ha].
    apply list_elem_of_singleton in Ha as ->.
    by apply list_elem_of_singleton in Hb as ->.
  - by destruct (Hht a b).
  - by destruct (Hht b a).
  - by apply (IH (after s h)).
Qed.

End Windows.

Lemma heartbeat_windows_apart Denoising now region stats f h :
  wf_cache f h → windows_apart f →
  windows_apart
    (fold_left Update
       (candidates float_oor Denoising now region stats f (visitedStores f region) h) f).
Proof.
  intros Hwf Hap.
  set (items := candidates float_oor Denoising now region stats f
                  (visitedStores f region) h).
  assert (∀ o r' s' o',
            o ∈ items → needDelete o = false →
            getOldHotPeerStat f r' s' = Some o' →
            RollingBytesRate o = RollingBytesRate o' →
            StoreID o = s' ∧ RegionID o = r') as Hmixed.
  { intros o r' s' o' Hin Hd Ho' Hw.
    destruct (candidates_window_origin _ _ _ _ _ _ _ _ Hwf Hin Hd) as [Hr Horig].
    destruct (getOldHotPeerStat f (GetID region) (StoreID o)) as [old|] eqn:Hold.
    - rewrite Hr. apply (Hap _ _ _ _ _ _ Hold Ho'). congruence.
    - destruct Horig as (n & Hn & Hle).
      destruct (Hwf _ _ _ Ho') as (l & Hl & Hlt). rewrite Hn, Hl in Hw.
      injection Hw as ->. lia. }
  intros s r o s' r' o' Ho Ho' Hw.
  apply fold_Update_inv_keys in Ho as [(Hin & Hd & <- & <-)|Ho],
                                Ho' as [(Hin' & Hd' & <- & <-)|Ho'].
  - destruct (candidates_window_origin _ _ _ _ _ _ _ _ Hwf Hin Hd) as [Hr Horig].
    destruct (candidates_window_origin _ _ _ _ _ _ _ _ Hwf Hin' Hd') as [Hr' Horig'].
    rewrite Hr, Hr'. split; [|done].
    destruct (getOldHotPeerStat f (GetID region) (StoreID o)) as [old|] eqn:Hold;
      destruct (getOldHotPeerStat f (GetID region) (StoreID o')) as [old'|] eqn:Hold'.
    + apply (Hap _ _ _ _ _ _ Hold Hold'). congruence.
    + destruct Horig' as (n & Hn & Hle).
      destruct (Hwf _ _ _ Hold) as (l & Hl & Hlt).
      rewrite Horig, Hn, Hl in Hw. injection Hw as ->. lia.
    + destruct Horig as (n & Hn & Hle).
      destruct (Hwf _ _ _ Hold') as (l & Hl & Hlt).
      rewrite Horig', Hn, Hl in Hw. injection Hw as ->. lia.
    + by eapply candidates_fresh_inj.
  - by apply (Hmixed o r' s' o').
  - destruct (Hmixed o' r s o Hin' Hd' Ho (eq_sym Hw)) as [-> ->]. done.
  - by apply (Hap _ _ _ _ _ _ Ho Ho').
Qed.

(** X18. In every state the cache reaches from its creation, no two
    cached stats share a rolling window: stats cached under different
    (region, store) keys point to different locations of the heap, so the
    sample a round adds to the window of one stat is seen by no other. *)
Theorem reachable_windows_not_shared
    (k : FlowKind) (s : St) (storeID regionID storeID' regionID' : Z)
    (o o' : HotPeerStat)
    (Hreach : reachable float_oor k s)
    (Hcached : getOldHotPeerStat (st_cache s) regionID storeID = Some o)
    (Hcached' : getOldHotPeerStat (st_cache s) regionID' storeID' = Some o')
    (Hshared : RollingBytesRate o = RollingBytesRate o') :
  storeID = storeID' ∧ regionID = regionID'.
Proof.
  revert Hcached Hcached' Hshared. revert storeID regionID o storeID' regionID' o'.
  change (windows_apart (st_cache s)).
  induction Hreach
    as [|Denoising now region stats s items s' Hreach IH Hrun
        |Denoising now region stats s items s' Hreach IH Hrun].
  - intros s r o s' r' o'. unfold getOldHotPeerStat. simpl. by rewrite lookup_empty.
  - pose proof (reachable_wf _ _ Hreach) as Hwf. destruct s as [f h].
    unfold wf_St in Hwf. cbn [st_cache st_heap] in *.
    rewrite CheckRegionFlow_run in Hrun by done. by injection Hrun as _ <-.
  - pose proof (reachable_wf _ _ Hreach) as Hwf. destruct s as [f h].
    unfold wf_St in Hwf. cbn [st_cache st_heap] in *.
    rewrite heartbeat_run in Hrun by done. injection Hrun as _ <-.
    cbn [st_cache]. by apply heartbeat_windows_apart.
Qed.

End Properties.

(** * Concrete runs *)

Lemma Ok_St_inj {A : Type} (a a' : A) f h f' h' :
  Ok (a, mkSt f h) = Ok (a', mkSt f' h') → a = a' ∧ f = f' ∧ h = h'.
Proof. by intros [= -> -> ->]. Qed.

Lemma beat_wf Denoising t region s : wf_St s → wf_St (snd (beat Denoising t region s)).
Proof.
  intros Hwf. unfold beat, exec.
  destruct (heartbeat_total float_oor_amd64 Denoising (sec t) region noStats s Hwf)
    as (items & s' & Hrun).
  rewrite Hrun. cbn [snd]. by eapply heartbeat_preserves_wf.
Qed.

Lemma wf_w0 : wf_St w0.
Proof. apply wf_cache_empty. Qed.

Lemma wf_w1 : wf_St w1.
Proof. apply beat_wf, wf_w0. Qed.

Lemma wf_w2 : wf_St w2.
Proof. apply beat_wf, wf_w1. Qed.


Lemma wf_r1 : wf_St r1.
Proof. apply beat_wf, wf_cache_empty. Qed.

(** The first two scenarios of the spec: three new stats at 512 KiB/s,
    then three stats of degree 1 at 3 MiB/s. *)
Example first_hot_promotion :
  List.map (fun i => (StoreID i, BytesRate i, HotDegree i, AntiCount i, isNew i, needDelete i))
           (fst (beat true 0 hotWrite w0))
  = [(3, 524288, 0, 1, true, false); (2, 524288, 0, 1, true, false);
     (1, 524288, 0, 1, true, false)].
Proof. vm_compute. reflexivity. Qed.

Example sustained_hot :
  List.map (fun i => (StoreID i, BytesRate i, HotDegree i, AntiCount i, isNew i, needDelete i))
           (fst (beat true 10 hotWrite w1))
  = [(3, 3145728, 1, 1, false, false); (2, 3145728, 1, 1, false, false);
     (1, 3145728, 1, 1, false, false)].
Proof. vm_compute. reflexivity. Qed.

(** The interval test at its boundary, and on a regressed clock. *)
Example reportTooFast_boundary :
  reportTooFast (3 * Second - 1) 0 = true
  ∧ reportTooFast (3 * Second) 0 = false
  ∧ reportTooFast (sec 5) (sec 10) = true.
Proof. vm_compute. repeat split. Qed.

(** ** Instances of the theorems *)

Lemma updateHotPeerStat_not_expired_witness :
  let f := NewHotStoresStats WriteFlow in
  let newItem := fun bps => newHotPeerStat f hotWrite 1 bps 500 (sec 10) false in
  let old := mkHotPeerStat 1 1 3 1 WriteFlow 0 0 (Some 0%nat) 0 7 false true false in
  let h := [NewRollingStats rollingWindowsSize] in
  updateHotPeerStat (newItem 100) None 100 16384 (mkSt f h) = Ok (None, mkSt f h)
  ∧ (∃ item st, updateHotPeerStat (newItem 20000) None 20000 16384 (mkSt f h)
                = Ok (Some item, st)
       ∧ HotDegree item = 0 ∧ AntiCount item = 1 ∧ isNew item = true
       ∧ needDelete item = false ∧ RollingBytesRate item = Some 1%nat)
  ∧ (∃ item st, updateHotPeerStat (newItem 20000) (Some old) 20000 16384 (mkSt f h)
                = Ok (Some item, st)
       ∧ HotDegree item = 4 ∧ AntiCount item = 1 ∧ isNew item = false
       ∧ needDelete item = false).
Proof.
  intros f newItem old h. split; [|split].
  - apply (updateHotPeerStat_not_expired (newItem 100) 100 16384 f h
             eq_refl eq_refl eq_refl). lia.
  - destruct (updateHotPeerStat_not_expired (newItem 20000) 20000 16384 f h
                eq_refl eq_refl eq_refl) as (_ & Hhot & _).
    destruct Hhot as (item & Hrun & Hd & Ha & _ & Hn & Hl & Hw); [lia|].
    exists item. eexists. by split; [exact Hrun|].
  - destruct (updateHotPeerStat_not_expired (newItem 20000) 20000 16384 f h
                eq_refl eq_refl eq_refl) as (_ & _ & Hold).
    destruct (Hold old 0%nat (NewRollingStats rollingWindowsSize))
      as (item & Hrun & Hd & Ha & Hn & Hl & _);
      [reflexivity|reflexivity|by vm_compute|by vm_compute|lia|].
    exists item. eexists. by split; [exact Hrun|].
Defined.

Lemma Update_keeps_forward_consistency_witness :
  let a := mkHotPeerStat 3 1 0 1 WriteFlow 524288 500 (Some 0%nat) 0 7 false false true in
  let b := mkHotPeerStat 2 1 0 1 WriteFlow 524288 500 (Some 1%nat) 0 7 false false true in
  let gone := mkHotPeerStat 3 1 0 0 WriteFlow 0 0 None (sec 10) 7 true false false in
  let f := fold_left Update [a] (NewHotStoresStats WriteFlow) in
  (∃ stores, storesOfRegion f !! 1 = Some stores ∧ 3 ∈ stores)
  ∧ (getOldHotPeerStat (Update f b) 1 2 = Some b ∧ 2 ∈ oldStores (Update f b) 1)
  ∧ (getOldHotPeerStat (Update f gone) 1 3 = None ∧ 3 ∉ oldStores (Update f gone) 1).
Proof.
  intros a b gone f.
  destruct (Update_keeps_forward_consistency WriteFlow [a]) as (Hinv & Hput & Hdel).
  split; [|split].
  - apply (Hinv 3 1 a). vm_compute. reflexivity.
  - apply (Hput b). reflexivity.
  - apply (Hdel gone). reflexivity.
Defined.

Lemma visitedStores_union_witness :
  3 ∈ oldStores (st_cache w2) (GetID shrunkWrite)
  ∧ 3 ∈ visitedStores (st_cache w2) shrunkWrite.
Proof.
  assert (3 ∈ oldStores (st_cache w2) (GetID shrunkWrite)) as Hold.
  { apply elem_of_elements, list_elem_of_In. vm_compute. tauto. }
  split; [exact Hold|].
  destruct (visitedStores_union (st_cache w2) shrunkWrite) as (_ & _ & _ & Hvisit).
  apply (Hvisit 3 Hold).
Defined.

Lemma hot_threshold_is_max_witness :
  calculateWriteHotThresholdWithStore float_oor_amd64 noStats 7 = 16 * 1024
  ∧ calculateReadHotThresholdWithStore float_oor_amd64 noStats 7 = 128 * 1024.
Proof.
  destruct (hot_threshold_is_max float_oor_amd64 noStats 7) as (_ & _ & _ & Hw & Hr).
  split; [apply (Hw false)|apply (Hr false)]; reflexivity.
Defined.

Lemma cached_w2_1 : getOldHotPeerStat (st_cache w2) 1 1 = Some (cached_w2 1 2 true).
Proof. vm_compute. reflexivity. Qed.

Lemma cached_w2_3 : getOldHotPeerStat (st_cache w2) 1 3 = Some (cached_w2 3 0 false).
Proof. vm_compute. reflexivity. Qed.

Lemma visited_w2 region storeID :
  List.In storeID (visitedStores (st_cache w2) region) →
  storeID ∈ visitedStores (st_cache w2) region.
Proof. apply list_elem_of_In. Qed.

Lemma expired_tombstone_is_blank_witness :
  ∃ items h' item,
    CheckRegionFlow float_oor_amd64 true (sec 20) shrunkWrite noStats
      (mkSt (st_cache w2) (st_heap w2))
    = Ok (items, mkSt (st_cache w2) h')
    ∧ item ∈ items ∧ StoreID item = 3 ∧ needDelete item = true
    ∧ HotDegree item = 0 ∧ AntiCount item = 0 ∧ RollingBytesRate item = None.
Proof.
  destruct (expired_tombstone_is_blank float_oor_amd64 true (sec 20) shrunkWrite noStats
              (st_cache w2) (st_heap w2) 3 (cached_w2 3 0 false))
    as (items & h' & item & Hrun & Hin & _ & Hs & Hd & _ & Hdeg & Hanti & Hwin & _).
  - exact wf_w2.
  - apply visited_w2. vm_compute. tauto.
  - vm_compute. reflexivity.
  - exact cached_w2_3.
  - exists items, h', item.
    exact (conj Hrun (conj Hin (conj Hs (conj Hd (conj Hdeg (conj Hanti Hwin)))))).
Defined.

Lemma clock_regression_skips_or_divides_witness :
  (∃ items h',
     CheckRegionFlow float_oor_amd64 true (sec 5) hotWrite noStats
       (mkSt (st_cache w2) (st_heap w2))
     = Ok (items, mkSt (st_cache w2) h')
     ∧ ∀ item, item ∈ items → StoreID item ≠ 1)
  ∧ (∃ items h' item,
       CheckRegionFlow float_oor_amd64 true (sec 5) shrunkWrite noStats
         (mkSt (st_cache w2) (st_heap w2))
       = Ok (items, mkSt (st_cache w2) h')
       ∧ item ∈ items ∧ StoreID item = 3 ∧ needDelete item = true
       ∧ BytesRate item
         = uint64_of_float64 float_oor_amd64
             (f64_div (f64_of_Z 6000) (Seconds (Since (sec 5) (sec 10))))).
Proof.
  split.
  - destruct (clock_regression_skips_or_divides float_oor_amd64 (sec 5) hotWrite noStats
                (st_cache w2) (st_heap w2) 1 (cached_w2 1 2 true))
      as (items & h' & Hrun & Hskip & _).
    + exact wf_w2.
    + apply visited_w2. vm_compute. tauto.
    + exact cached_w2_1.
    + vm_compute. reflexivity.
    + exists items, h'. split; [exact Hrun|]. apply Hskip. vm_compute. reflexivity.
  - destruct (clock_regression_skips_or_divides float_oor_amd64 (sec 5) shrunkWrite noStats
                (st_cache w2) (st_heap w2) 3 (cached_w2 3 0 false))
      as (items & h' & Hrun & _ & Hdiv).
    + exact wf_w2.
    + apply visited_w2. vm_compute. tauto.
    + exact cached_w2_3.
    + vm_compute. reflexivity.
    + destruct Hdiv as (item & Hin & Hs & Hd & Hb & _); [vm_compute; reflexivity|].
      exists items, h', item.
      exact (conj Hrun (conj Hin (conj Hs (conj Hd Hb)))).
Defined.

Lemma no_leader_read_check_witness :
  ∃ items,
    CheckRegionFlow float_oor_amd64 true (sec 60) (readRegion None) noStats
      (mkSt (st_cache r1) (st_heap r1))
    = Ok (items, mkSt (st_cache r1) (st_heap r1))
    ∧ List.map StoreID items = elements (oldStores (st_cache r1) 2)
    ∧ (∀ item, item ∈ items → needDelete item = true).
Proof.
  destruct (no_leader_read_check float_oor_amd64 true (sec 60) (readRegion None) noStats
              (st_cache r1) (st_heap r1))
    as (items & Hrun & Hmap & Hdel & _).
  - vm_compute. reflexivity.
  - reflexivity.
  - intros Hin. apply elem_of_elements, list_elem_of_In in Hin.
    vm_compute in Hin. destruct Hin as [Hin|[]]. discriminate Hin.
  - exists items. exact (conj Hrun (conj Hmap Hdel)).
Defined.

Lemma cached_w1_1 : getOldHotPeerStat (st_cache w1) 1 1 = Some (cached_w1 1 2 true).
Proof. vm_compute. reflexivity. Qed.


Lemma check_writes_old_windows_only_witness :
  ∃ items h' w,
    CheckRegionFlow float_oor_amd64 true (sec 10) hotWrite noStats
      (mkSt (st_cache w1) (st_heap w1))
    = Ok (items, mkSt (st_cache w1) h')
    ∧ st_heap w1 !! 2%nat = Some w
    ∧ h' !! 2%nat = Some (rs_Add w (f64_of_Z 3145728)).
Proof.
  destruct (check_writes_old_windows_only float_oor_amd64 true (sec 10) hotWrite noStats
              (st_cache w1) (st_heap w1) wf_w1) as (items & h' & Hrun & _ & _ & Hsample).
  assert (st_heap w1 !! 2%nat
          = Some (rs_Add (NewRollingStats rollingWindowsSize) (f64_of_Z 524288))) as Hw
    by (vm_compute; reflexivity).
  eexists items, h', _. split; [exact Hrun|]. split; [exact Hw|].
  apply (Hsample 1 (cached_w1 1 2 true) 2%nat _ 3145728 3000).
  - apply list_elem_of_In. vm_compute. tauto.
  - exact cached_w1_1.
  - reflexivity.
  - exact Hw.
  - vm_compute. reflexivity.
  - vm_compute. reflexivity.
  - intros s' old' Hs' Hne Hold'. apply list_elem_of_In in Hs'.
    vm_compute in Hs'. destruct Hs' as [<-|[<-|[<-|[]]]].
    + vm_compute in Hold'. injection Hold' as <-. discriminate.
    + vm_compute in Hold'. injection Hold' as <-. discriminate.
    + by destruct Hne.
Defined.

Lemma cooling_deletes_at_second_cold_heartbeat_witness :
  ∃ items1 s1 item1 items2 s2 item2,
    heartbeat float_oor_amd64 true (sec 20) coldWrite noStats
      (mkSt (st_cache w2) (st_heap w2)) = Ok (items1, s1)
    ∧ item1 ∈ items1 ∧ StoreID item1 = 1
    ∧ HotDegree item1 = 0 ∧ AntiCount item1 = 0 ∧ needDelete item1 = false
    ∧ heartbeat float_oor_amd64 true (sec 30) coldWrite noStats s1 = Ok (items2, s2)
    ∧ item2 ∈ items2 ∧ StoreID item2 = 1
    ∧ needDelete item2 = true ∧ AntiCount item2 = -1 ∧ HotDegree item2 = -1
    ∧ getOldHotPeerStat (st_cache s2) 1 1 = None.
Proof.
  destruct (cooling_deletes_at_second_cold_heartbeat float_oor_amd64 true (sec 20)
              coldWrite noStats (st_cache w2) (st_heap w2) 1 (cached_w2 1 2 true) 102 1)
    as (items1 & f1 & h1 & item1 & Hrun1 & Hin1 & _ & Hs1 & Hd1 & Ha1 & _ & Hl1 & _ & Hnext).
  - exact wf_w2.
  - apply list_elem_of_In. vm_compute. tauto.
  - exact cached_w2_1.
  - vm_compute. split; [reflexivity|discriminate].
  - vm_compute. split; discriminate.
  - vm_compute. reflexivity.
  - vm_compute. reflexivity.
  - vm_compute. reflexivity.
  - assert (heartbeat float_oor_amd64 true (sec 20) coldWrite noStats
              (mkSt (st_cache w2) (st_heap w2))
            = Ok (fst (beat true 20 coldWrite w2), mkSt (st_cache w3) (st_heap w3)))
      as Hrun by (vm_compute; reflexivity).
    pose proof Hrun1 as Hrun1'. rewrite Hrun in Hrun1'.
    apply Ok_St_inj in Hrun1' as (_ & Hf1 & Hh1).
    destruct (Hnext eq_refl true (sec 30) coldWrite noStats 102 1)
      as (items2 & f2 & h2 & item2 & Hrun2 & Hin2 & _ & Hs2 & Hl2 & Ha2 & Hd2 & Hget2).
    + reflexivity.
    + rewrite <- Hf1. vm_compute. reflexivity.
    + rewrite <- Hf1. vm_compute. reflexivity.
    + rewrite <- Hf1. vm_compute. reflexivity.
    + exists items1, (mkSt f1 h1), item1, items2, (mkSt f2 h2), item2.
      exact (conj Hrun1 (conj Hin1 (conj Hs1 (conj Hd1 (conj Ha1 (conj Hl1
               (conj Hrun2 (conj Hin2 (conj Hs2 (conj Hl2 (conj Ha2
                  (conj Hd2 Hget2)))))))))))).
Defined.

(** ** Where the spec and the code part *)

(** C2. In [w2] the stat of store 1 has degree H = 1 and anti-count 1.
    The second cold heartbeat already emits the stats marked
    [needDelete] (anti-count -1, degree H - 2) and [Update] removes them;
    the third one, the (H + [hotRegionAntiCount] + 1)-th, emits nothing. *)
Lemma cooling_third_cold_heartbeat_counterexample :
  getOldHotPeerStat (st_cache w2) 1 1 = Some (cached_w2 1 2 true)
  ∧ HotDegree (cached_w2 1 2 true) + hotRegionAntiCount + 1 = 3
  ∧ (∃ items, heartbeat float_oor_amd64 true (sec 20) coldWrite noStats w2 = Ok (items, w3)
       ∧ List.map (fun i => (StoreID i, HotDegree i, AntiCount i, needDelete i)) items
         = [(3, 0, 0, false); (2, 0, 0, false); (1, 0, 0, false)])
  ∧ (∃ items, heartbeat float_oor_amd64 true (sec 30) coldWrite noStats w3 = Ok (items, w4)
       ∧ List.map (fun i => (StoreID i, HotDegree i, AntiCount i, needDelete i)) items
         = [(3, -1, -1, true); (2, -1, -1, true); (1, -1, -1, true)])
  ∧ getOldHotPeerStat (st_cache w4) 1 1 = None
  ∧ heartbeat float_oor_amd64 true (sec 40) coldWrite noStats w4 = Ok ([], w4).
Proof.
  split; [exact cached_w2_1|]. split; [reflexivity|].
  split; [|split; [|split]].
  - exists (fst (beat true 20 coldWrite w2)). split; vm_compute; reflexivity.
  - exists (fst (beat true 30 coldWrite w3)). split; vm_compute; reflexivity.
  - vm_compute. reflexivity.
  - vm_compute. reflexivity.
Qed.

(** C3. In [w2] store 3 holds a stat of degree 1 and anti-count 1 with
    window 0. Once the peer on store 3 has left the region, the stat
    emitted for store 3 has [needDelete] but degree 0, anti-count 0 and no
    window, and window 0 has received no sample. *)
Lemma expired_tombstone_counterexample :
  ∃ items s' item,
    getOldHotPeerStat (st_cache w2) 1 3 = Some (cached_w2 3 0 false)
    ∧ isRegionExpired (st_cache w2) shrunkWrite 3 = true
    ∧ CheckRegionFlow float_oor_amd64 true (sec 20) shrunkWrite noStats w2 = Ok (items, s')
    ∧ List.filter (fun i => StoreID i =? 3) items = [item]
    ∧ needDelete item = true
    ∧ HotDegree item ≠ HotDegree (cached_w2 3 0 false)
    ∧ AntiCount item ≠ AntiCount (cached_w2 3 0 false)
    ∧ RollingBytesRate item ≠ RollingBytesRate (cached_w2 3 0 false)
    ∧ st_heap s' !! 0%nat = st_heap w2 !! 0%nat.
Proof.
  exists (fst (check true 20 shrunkWrite w2)), (snd (check true 20 shrunkWrite w2)),
         (newHotPeerStat (st_cache w2) shrunkWrite 3 600 1 (sec 20) true).
  split; [exact cached_w2_3|].
  split; [vm_compute; reflexivity|].
  split; [vm_compute; reflexivity|].
  split; [vm_compute; reflexivity|].
  split; [reflexivity|].
  split; [vm_compute; discriminate|].
  split; [vm_compute; discriminate|].
  split; [vm_compute; discriminate|].
  vm_compute. reflexivity.
Qed.

(** C4. In [w2] the stats were updated at 10 s. With the clock back at
    5 s, the hot region is not evaluated over the nominal interval (which
    gives 512 KiB/s and three updates, as the run without denoising
    shows): nothing is emitted. For the expired peer of store 3, with the
    clock at -9990 s, the emitted rate is [uint64(6000 / -10000)] = 0 and
    not 6000 / 60 = 100. *)
Lemma clock_regression_counterexample :
  sec 5 < LastUpdateTime (cached_w2 1 2 true)
  ∧ getOldHotPeerStat (st_cache w2) 1 1 = Some (cached_w2 1 2 true)
  ∧ CheckRegionFlow float_oor_amd64 true (sec 5) hotWrite noStats w2 = Ok ([], w2)
  ∧ (∃ items s', CheckRegionFlow float_oor_amd64 false (sec 5) hotWrite noStats w2
                 = Ok (items, s')
       ∧ List.map (fun i => (StoreID i, BytesRate i)) items
         = [(3, 524288); (2, 524288); (1, 524288)])
  ∧ bytesPerSecInit float_oor_amd64 (st_cache w2) shrunkWrite = 100
  ∧ (∃ items s', CheckRegionFlow float_oor_amd64 true (sec (-9990)) shrunkWrite noStats w2
                 = Ok (items, s')
       ∧ List.map (fun i => (StoreID i, BytesRate i, needDelete i)) items = [(3, 0, true)]).
Proof.
  split; [reflexivity|]. split; [exact cached_w2_1|].
  split; [vm_compute; reflexivity|]. split; [|split].
  - exists (fst (check false 5 hotWrite w2)), (snd (check false 5 hotWrite w2)).
    split; vm_compute; reflexivity.
  - vm_compute. reflexivity.
  - exists (fst (check true (-9990) shrunkWrite w2)), (snd (check true (-9990) shrunkWrite w2)).
    split; vm_compute; reflexivity.
Qed.

(** C5. In [r1] store 4 is recorded for region 2. For the region without
    leader the read-flow check does not return the empty list: it returns
    a stat marked [needDelete] for store 4. *)
Lemma no_leader_read_check_counterexample :
  ∃ item,
    GetLeader (readRegion None) = None
    ∧ kind (st_cache r1) = ReadFlow
    ∧ elements (oldStores (st_cache r1) 2) = [4]
    ∧ CheckRegionFlow float_oor_amd64 true (sec 60) (readRegion None) noStats r1
      = Ok ([item], r1)
    ∧ StoreID item = 4 ∧ needDelete item = true.
Proof.
  exists (newHotPeerStat (st_cache r1) (readRegion None) 4 349525 333 (sec 60) true).
  split; [reflexivity|]. split; [vm_compute; reflexivity|].
  split; [vm_compute; reflexivity|]. split; [vm_compute; reflexivity|].
  split; reflexivity.
Qed.

(** C10. In [w1] the stat of store 1 owns window 2, which holds one
    sample. After [CheckRegionFlow] alone, with no [Update], the cache is
    the same and still owns window 2, but the window holds two samples. *)
Lemma check_mutates_window_counterexample :
  ∃ items s',
    CheckRegionFlow float_oor_amd64 true (sec 10) hotWrite noStats w1 = Ok (items, s')
    ∧ st_cache s' = st_cache w1
    ∧ RollingBytesRate (cached_w1 1 2 true) = Some 2%nat
    ∧ getOldHotPeerStat (st_cache s') 1 1 = Some (cached_w1 1 2 true)
    ∧ option_map rs_count (st_heap w1 !! 2%nat) = Some 1%nat
    ∧ option_map rs_count (st_heap s' !! 2%nat) = Some 2%nat
    ∧ st_heap s' ≠ st_heap w1.
Proof.
  exists (fst (check true 10 hotWrite w1)), (snd (check true 10 hotWrite w1)).
  split; [vm_compute; reflexivity|]. split; [vm_compute; reflexivity|].
  split; [reflexivity|]. split; [vm_compute; reflexivity|].
  split; [vm_compute; reflexivity|]. split; [vm_compute; reflexivity|].
  vm_compute. discriminate.
Qed.


(** ** Instances of the further properties *)


Lemma reachable_w1 : reachable float_oor_amd64 WriteFlow w1.
Proof.
  apply (reachable_heartbeat float_oor_amd64 WriteFlow true (sec 0) hotWrite noStats
           w0 (fst (beat true 0 hotWrite w0))).
  - apply reachable_new.
  - vm_compute. reflexivity.
Qed.

Lemma reachable_w2 : reachable float_oor_amd64 WriteFlow w2.
Proof.
  apply (reachable_heartbeat float_oor_amd64 WriteFlow true (sec 10) hotWrite noStats
           w1 (fst (beat true 10 hotWrite w1))).
  - exact reachable_w1.
  - vm_compute. reflexivity.
Qed.

(** The facade over the write cache of [w2] and an empty read cache. *)
Lemma facade_w2_kinds :
  let w := mkHotSpotCache (st_cache w2) (NewHotStoresStats ReadFlow) in
  kind (writeFlow w) = WriteFlow ∧ kind (readFlow w) = ReadFlow.
Proof. split; vm_compute; reflexivity. Qed.




Lemma reachable_cached_stats_ok_witness :
  needDelete (cached_w2 1 2 true) = false
  ∧ (∃ (l : loc) w, RollingBytesRate (cached_w2 1 2 true) = Some l
                    ∧ st_heap w2 !! l = Some w)
  ∧ 1 ∈ oldStores (st_cache w2) 1.
Proof.
  destruct (reachable_cached_stats_ok float_oor_amd64 WriteFlow w2 1 1
              (cached_w2 1 2 true) reachable_w2 cached_w2_1)
    as (_ & _ & _ & _ & Hd & _ & _ & _ & Hw & Hst).
  exact (conj Hd (conj Hw Hst)).
Defined.

Lemma reachable_never_panics_witness :
  ∃ items h' s',
    CheckRegionFlow float_oor_amd64 true (sec 20) coldWrite noStats w2
    = Ok (items, mkSt (st_cache w2) h')
    ∧ heartbeat float_oor_amd64 true (sec 20) coldWrite noStats w2 = Ok (items, s')
    ∧ st_heap s' = h'.
Proof.
  destruct (reachable_never_panics float_oor_amd64 WriteFlow w2 true (sec 20) coldWrite
              noStats reachable_w2)
    as (items & h' & s' & Hcheck & Hbeat & Hh & _).
  exists items, h', s'. exact (conj Hcheck (conj Hbeat Hh)).
Defined.


Lemma cold_unknown_region_is_ignored_witness :
  CheckRegionFlow float_oor_amd64 true (sec 0) coldWrite noStats
    (mkSt (NewHotStoresStats WriteFlow) [])
  = Ok ([], mkSt (NewHotStoresStats WriteFlow) [])
  ∧ heartbeat float_oor_amd64 true (sec 0) coldWrite noStats
      (mkSt (NewHotStoresStats WriteFlow) [])
    = Ok ([], mkSt (NewHotStoresStats WriteFlow) []).
Proof.
  apply (cold_unknown_region_is_ignored float_oor_amd64 true (sec 0) coldWrite noStats
           (NewHotStoresStats WriteFlow) []).
  - apply forward_consistent_empty.
  - reflexivity.
  - by vm_compute.
Defined.

Lemma read_flow_keeps_leader_only_witness :
  ∃ items h',
    CheckRegionFlow float_oor_amd64 true (sec 60) (readRegion (Some (mkPeer 25 5))) noStats
      (mkSt (st_cache r1) (st_heap r1))
    = Ok (items, mkSt (st_cache r1) h')
    ∧ ∀ item, item ∈ items → needDelete item = false → StoreID item = 5.
Proof.
  destruct (read_flow_keeps_leader_only float_oor_amd64 true (sec 60)
              (readRegion (Some (mkPeer 25 5))) noStats (st_cache r1) (st_heap r1))
    as (items & h' & Hrun & Hitems).
  - exact wf_r1.
  - vm_compute. reflexivity.
  - exists items, h'. split; [exact Hrun|]. intros item Hin Hd.
    destruct (Hitems item Hin) as (_ & _ & Hkeep). exact (proj1 (Hkeep Hd)).
Defined.

Lemma update_counter_names_the_transition_witness :
  ∃ items h',
    CheckRegionFlow float_oor_amd64 true (sec 20) shrunkWrite noStats
      (mkSt (st_cache w2) (st_heap w2))
    = Ok (items, mkSt (st_cache w2) h')
    ∧ ∀ item, item ∈ items →
        snd (Metrics.updateEvent item) = WriteFlow
        ∧ (Metrics.updateAction item = Metrics.remove_item ↔ needDelete item = true).
Proof.
  destruct (update_counter_names_the_transition float_oor_amd64 true (sec 20) shrunkWrite
              noStats (st_cache w2) (st_heap w2) wf_w2)
    as (items & h' & Hrun & Hitems).
  exists items, h'. split; [exact Hrun|]. intros item Hin.
  destruct (Hitems item Hin) as (Hk & Hrem & _). exact (conj Hk Hrem).
Defined.

Lemma facade_update_returns_to_emitting_cache_witness :
  let w := mkHotSpotCache (st_cache w1) (NewHotStoresStats ReadFlow) in
  ∃ items h',
    CheckWrite float_oor_amd64 true (sec 10) hotWrite noStats w (st_heap w1)
    = Ok (items, (w, h'))
    ∧ ∀ item, item ∈ items →
        Kind item = WriteFlow
        ∧ HotSpotCache_Update w item
          = mkHotSpotCache (Update (writeFlow w) item) (readFlow w).
Proof.
  intros w.
  destruct (facade_update_returns_to_emitting_cache float_oor_amd64 true (sec 10)
              hotWrite noStats w (st_heap w1))
    as (Hwrite & _).
  - vm_compute. reflexivity.
  - reflexivity.
  - exact wf_w1.
  - apply wf_cache_empty.
  - exact Hwrite.
Defined.

Lemma RandHotRegionFromStore_finds_a_hot_stat_witness :
  let w := mkHotSpotCache (st_cache w2) (NewHotStoresStats ReadFlow) in
  RandHotRegionFromStore (seq 0) w 9 WriteFlow 1 = Ok None
  ∧ ∃ r, RandHotRegionFromStore (seq 0) w 1 WriteFlow 1 = Ok r
         ∧ ∀ stat, r = Some stat → 1 ≤ HotDegree stat.
Proof.
  intros w.
  destruct (RandHotRegionFromStore_finds_a_hot_stat (seq 0) w 9 WriteFlow 1)
    as (Hnone & _).
  { intros n. reflexivity. }
  destruct (RandHotRegionFromStore_finds_a_hot_stat (seq 0) w 1 WriteFlow 1)
    as (_ & Hsome).
  { intros n. reflexivity. }
  split.
  - apply Hnone. vm_compute. reflexivity.
  - destruct (Hsome [cached_w2 1 2 true]) as (r & Hrun & Hhot & _).
    + vm_compute. reflexivity.
    + exists r. split; [exact Hrun|]. intros stat Hr. exact (proj2 (Hhot stat Hr)).
Defined.

Lemma cached_hot_stat_is_offered_witness :
  let w := mkHotSpotCache (st_cache w2) (NewHotStoresStats ReadFlow) in
  ∃ stat, RandHotRegionFromStore (seq 0) w 1 WriteFlow 1 = Ok (Some stat)
          ∧ 1 ≤ HotDegree stat.
Proof.
  intros w.
  destruct (cached_hot_stat_is_offered (seq 0) w 1 1 WriteFlow 1 (cached_w2 1 2 true))
    as (_ & Hoffer).
  - intros n. reflexivity.
  - exact cached_w2_1.
  - by vm_compute.
  - exact Hoffer.
Defined.

Lemma reachable_windows_not_shared_witness :
  getOldHotPeerStat (st_cache w2) 1 1 = Some (cached_w2 1 2 true)
  ∧ (1 = 1 ∧ 1 = 1).
Proof.
  split; [exact cached_w2_1|].
  exact (reachable_windows_not_shared float_oor_amd64 WriteFlow w2 1 1 1 1
           (cached_w2 1 2 true) (cached_w2 1 2 true)
           reachable_w2 cached_w2_1 cached_w2_1 eq_refl).
Defined.

Lemma facade_IsRegionHot_write_peers_or_read_leader_witness :
  let w := mkHotSpotCache (st_cache w2) (NewHotStoresStats ReadFlow) in
  HotSpotCache_IsRegionHot_v0 w hotWrite 1 = HotSpotCache_IsRegionHot w hotWrite 1.
Proof.
  intros w.
  exact (proj2 (facade_IsRegionHot_write_peers_or_read_leader w hotWrite 1
                  (proj1 facade_w2_kinds) (proj2 facade_w2_kinds))).
Defined.

Lemma IsRegionHot_finds_cached_degree_witness :
  IsRegionHot (st_cache w2) hotWrite 1 = true
  ∧ IsRegionHot (st_cache w2) hotWrite 0 = true.
Proof.
  destruct (IsRegionHot_finds_cached_degree (st_cache w2) hotWrite 1)
    as (Hwrite & _ & Hlower).
  assert (IsRegionHot (st_cache w2) hotWrite 1 = true) as Hhot.
  { apply Hwrite; [vm_compute; reflexivity|].
    exists (mkPeer 11 1), (cached_w2 1 2 true). split; [|split].
    - apply list_elem_of_In. vm_compute. tauto.
    - exact cached_w2_1.
    - by vm_compute. }
  split; [exact Hhot|]. apply (Hlower 0); [lia|exact Hhot].
Defined.
